(** * AeroForge Monte-Carlo range analysis

    A shallow embedding of [aeroforge_analysis.py]: the closed-form range
    model [aeroforge_range_calc], the Monte-Carlo driver
    [run_aeroforge_montecarlo] and the statistics of [analyze_results].

    Python is duck-typed, so the numeric code is written once over an
    interface [Scalar] and read at two instances:
    - [float] (Rocq's primitive binary64 numbers), the arithmetic of the
      [numpy.float64] scalars the driver passes around: operations round to
      nearest, never trap, and produce infinities and NaN;
    - [R], exact real arithmetic, for the algebra of the closed form.

    Calls to [print] and the plotting and export code are left out. *)

From Stdlib Require Import String ZArith List Bool Lia.
From Stdlib Require Import Floats.
From Stdlib Require Import Reals Lra.
Import ListNotations.
Open Scope string_scope.
Open Scope list_scope.

Set Implicit Arguments.

(** ** The numeric interface *)

Declare Scope num_scope.
Delimit Scope num_scope with num.

Class Scalar (T : Type) : Type := {
  of_int : Z -> T;          (* an [int] operand or literal, converted *)
  add : T -> T -> T;
  sub : T -> T -> T;
  mul : T -> T -> T;
  div : T -> T -> T;
  sqrt : T -> T;            (* np.sqrt *)
  np_maximum : T -> T -> T; (* np.maximum on scalars *)
  np_minimum : T -> T -> T; (* np.minimum on scalars *)
  geb : T -> T -> bool      (* x >= y *)
}.

Infix "+" := add : num_scope.
Infix "-" := sub : num_scope.
Infix "*" := mul : num_scope.
Infix "/" := div : num_scope.
Infix ">=?" := geb (at level 70, no associativity) : num_scope.

(** A decimal literal with [d] digits after the point: [lit 92 2] is
    [0.92].  Both operands are integers below [2^53], so at binary64 the one
    rounding of the division gives the double nearest to the decimal, which
    is what Python's parser yields ([lit_matches_parser] below). *)
Definition lit {T} `{Scalar T} (m : Z) (d : nat) : T :=
  (of_int m / of_int (10 ^ Z.of_nat d))%num.

(** *** binary64 *)

Module F64.

Definition of_int (z : Z) : float :=
  match z with
  | Z0 => PrimFloat.zero
  | Zpos _ => PrimFloat.of_uint63 (Uint63.of_Z z)
  | Zneg p => PrimFloat.opp (PrimFloat.of_uint63 (Uint63.of_Z (Zpos p)))
  end.

(** numpy's loop for [maximum]: [(in1 >= in2 || isnan(in1)) ? in1 : in2],
    so a NaN on either side is returned. *)
Definition maximum (in1 in2 : float) : float :=
  if PrimFloat.leb in2 in1 || PrimFloat.is_nan in1 then in1 else in2.

(** numpy's loop for [minimum]: [(in1 <= in2 || isnan(in1)) ? in1 : in2]. *)
Definition minimum (in1 in2 : float) : float :=
  if PrimFloat.leb in1 in2 || PrimFloat.is_nan in1 then in1 else in2.

End F64.

#[export] Instance Scalar_float : Scalar float := {
  of_int := F64.of_int;
  add := PrimFloat.add;
  sub := PrimFloat.sub;
  mul := PrimFloat.mul;
  div := PrimFloat.div;
  sqrt := PrimFloat.sqrt;
  np_maximum := F64.maximum;
  np_minimum := F64.minimum;
  geb := fun x y => PrimFloat.leb y x
}.

(** *** exact reals *)

Module Exact.

Definition maximum (in1 in2 : R) : R :=
  if Rle_dec in2 in1 then in1 else in2.

Definition minimum (in1 in2 : R) : R :=
  if Rle_dec in1 in2 then in1 else in2.

Definition geb (x y : R) : bool :=
  if Rle_dec y x then true else false.

End Exact.

#[export] Instance Scalar_R : Scalar R := {
  of_int := IZR;
  add := Rplus;
  sub := Rminus;
  mul := Rmult;
  div := Rdiv;
  sqrt := R_sqrt.sqrt;
  np_maximum := Exact.maximum;
  np_minimum := Exact.minimum;
  geb := Exact.geb
}.

(** ** The range model (lines 20-44) *)

Section RangeModel.
Context {T : Type} `{Scalar T}.
Local Open Scope num_scope.

(** The default of the keyword argument [cruise_hours=6]. *)
Definition cruise_hours_default : T := of_int 6.

Definition aeroforge_range_calc
    (eta_system epack_wh_per_kg m_batt_kg m_total_kg g l_over_d sfc_eq
     harvest_kw sic_efficiency_gain cruise_hours : T) : T :=
  (* Battery energy *)
  let e_pack_total_wh := epack_wh_per_kg * m_batt_kg in
  (* Harvesting energy *)
  let e_harvest_wh := harvest_kw * of_int 1000 * cruise_hours in
  (* SiC-enhanced efficiency *)
  let eta_effective := eta_system * sic_efficiency_gain in
  (* Total usable energy *)
  let e_usable_wh := eta_effective * (e_pack_total_wh + e_harvest_wh) in
  (* Electric Breguet calculation *)
  let r_m := e_usable_wh / (g * l_over_d * sfc_eq * m_total_kg) in
  let r_km := np_maximum (of_int 0) (np_minimum (of_int 50000) (r_m / of_int 1000)) in
  r_km.

(** The quotient of step 5 before it is converted and bounded. *)
Definition breguet_r_m
    (eta_system epack_wh_per_kg m_batt_kg m_total_kg g l_over_d sfc_eq
     harvest_kw sic_efficiency_gain cruise_hours : T) : T :=
  (eta_system * sic_efficiency_gain
   * (epack_wh_per_kg * m_batt_kg + harvest_kw * of_int 1000 * cruise_hours))
  / (g * l_over_d * sfc_eq * m_total_kg).

(** The product the quotient divides by. *)
Definition denominator (g l_over_d sfc_eq m_total_kg : T) : T :=
  g * l_over_d * sfc_eq * m_total_kg.

End RangeModel.

(** The six steps of the written algorithm, in its own words, to compare
    [aeroforge_range_calc] with. *)
Section RangeModelSpec.
Context {T : Type} `{Scalar T}.
Local Open Scope num_scope.

Definition clamp (lo hi x : T) : T := np_maximum lo (np_minimum hi x).

Definition RangeModel_spec
    (eta_system epack_wh_per_kg m_batt_kg m_total_kg g l_over_d sfc_eq
     harvest_kw sic_efficiency_gain cruise_hours : T) : T :=
  let E_pack := epack_wh_per_kg * m_batt_kg in
  let E_harvest := harvest_kw * of_int 1000 * cruise_hours in
  let eta_eff := eta_system * sic_efficiency_gain in
  let E_usable := eta_eff * (E_pack + E_harvest) in
  let R_m := E_usable / (g * l_over_d * sfc_eq * m_total_kg) in
  clamp (of_int 0) (of_int 50000) (R_m / of_int 1000).

End RangeModelSpec.

(** ** Exceptions, dictionaries and arrays *)

Inductive exn : Type := ValueError | KeyError | IndexError.

Inductive result (A : Type) : Type :=
| Ok (a : A)
| Raise (e : exn).
Arguments Raise {A} e.

Definition bind_result {A B} (c : result A) (k : A -> result B) : result B :=
  match c with
  | Ok a => k a
  | Raise e => Raise e
  end.

Declare Scope result_scope.
Delimit Scope result_scope with result.
Notation "x <- c ;; k" := (bind_result c (fun x => k))
  (at level 61, c at next level, right associativity) : result_scope.

(** A computation over the process-wide generator state: it returns or
    raises, and leaves a state behind either way. *)
Definition Py (S A : Type) : Type := S -> result A * S.

Definition ret {S A} (a : A) : Py S A := fun s => (Ok a, s).

Definition bind {S A B} (c : Py S A) (k : A -> Py S B) : Py S B :=
  fun s =>
    match c s with
    | (Ok a, s') => k a s'
    | (Raise e, s') => (Raise e, s')
    end.

Definition lift {S A} (r : result A) : Py S A := fun s => (r, s).

Declare Scope py_scope.
Delimit Scope py_scope with py.
Notation "x <- c ;; k" := (bind c (fun x => k))
  (at level 61, c at next level, right associativity) : py_scope.

(** A [dict] with string keys, in insertion order. *)
Definition dict (V : Type) : Type := list (string * V).

Fixpoint dict_get {V} (d : dict V) (k : string) : option V :=
  match d with
  | [] => None
  | (k', v) :: rest => if String.eqb k k' then Some v else dict_get rest k
  end.

(** [d[k] = v]: an existing key keeps its place, a new one goes last. *)
Fixpoint dict_set {V} (d : dict V) (k : string) (v : V) : dict V :=
  match d with
  | [] => [(k, v)]
  | (k', v') :: rest =>
      if String.eqb k k' then (k', v) :: rest else (k', v') :: dict_set rest k v
  end.

(** [d[k]] as an expression. *)
Definition dict_getitem {V} (d : dict V) (k : string) : result V :=
  match dict_get d k with
  | Some v => Ok v
  | None => Raise KeyError
  end.

(** [a[i]] for [0 <= i]. *)
Definition getitem {A} (a : list A) (i : nat) : result A :=
  match nth_error a i with
  | Some v => Ok v
  | None => Raise IndexError
  end.

Fixpoint list_set {A} (a : list A) (i : nat) (v : A) : list A :=
  match a, i with
  | [], _ => []
  | _ :: rest, O => v :: rest
  | x :: rest, S j => x :: list_set rest j v
  end.

(** [d[k][i]]. *)
Definition sample_at {A} (d : dict (list A)) (k : string) (i : nat) : result A :=
  bind_result (dict_getitem d k) (fun a => getitem a i).

(** [a[i] = v] for [0 <= i]. *)
Definition setitem {A} (a : list A) (i : nat) (v : A) : result (list A) :=
  if (i <? length a)%nat then Ok (list_set a i v) else Raise IndexError.

(** [for i in idx: acc = body(i, acc)]. *)
Fixpoint for_each {A} (idx : list nat) (body : nat -> A -> result A) (acc : A)
  : result A :=
  match idx with
  | [] => Ok acc
  | i :: rest => bind_result (body i acc) (for_each rest body)
  end.

(** ** The Monte-Carlo driver (lines 46-101) *)

Section Params.
Variable T : Type.

(** The dictionary [params_nom]; its keys are fixed, so it is a record. *)
Record Params : Type := {
  eta_system : T;
  epack_wh_per_kg : T;
  m_batt_kg : T;
  m_total_kg : T;
  g : T;
  l_over_d : T;
  sfc_eq : T;
  harvest_kw : T;
  sic_efficiency_gain : T
}.

End Params.

Section MonteCarlo.
Context {T : Type} `{Scalar T}.

(** numpy's legacy global generator is not part of the repository: its
    state, its seeding and one standard-normal draw are taken as given. *)
Variable rng_state : Type.
Variable init_by_seed : Z -> rng_state.
Variable gauss : rng_state -> T * rng_state.

(** [np.random.seed(seed)]: a seed outside [0, 2^32) is refused. *)
Definition np_random_seed (seed : Z) : Py rng_state unit :=
  fun s =>
    if (0 <=? seed)%Z && (seed <? 2 ^ 32)%Z
    then (Ok tt, init_by_seed seed)
    else (Raise ValueError, s).

Fixpoint draw (n : nat) (s : rng_state) : list T * rng_state :=
  match n with
  | O => ([], s)
  | S k =>
      let (z, s1) := gauss s in
      let (zs, s2) := draw k s1 in
      (z :: zs, s2)
  end.

(** [np.random.randn(n)]: [n] draws in sequence; a negative dimension is
    refused.  Arrays are lists of any length: the [MemoryError] numpy raises
    when an array of [n] doubles cannot be allocated is outside the model. *)
Definition np_random_randn (n : Z) : Py rng_state (list T) :=
  fun s =>
    if (n <? 0)%Z then (Raise ValueError, s)
    else let (zs, s') := draw (Z.to_nat n) s in (Ok zs, s').

(** [np.zeros(n)] for [0 <= n]. *)
Definition np_zeros (n : Z) : list T := repeat (of_int 0) (Z.to_nat n).

(** [np.clip(a, a_min, a_max)], which numpy documents as
    [np.minimum(a_max, np.maximum(a, a_min))]. *)
Definition np_clip (a a_min a_max : T) : T :=
  np_minimum a_max (np_maximum a a_min).

Local Open Scope num_scope.

Definition params_nom : Params T := {|
  eta_system := lit 92 2;
  epack_wh_per_kg := of_int 450;
  m_batt_kg := of_int 25000;
  m_total_kg := of_int 80000;
  g := lit 980665 5;
  l_over_d := of_int 22;
  sfc_eq := lit 15 5;
  harvest_kw := of_int 15;
  sic_efficiency_gain := lit 108 2
|}.

(** [nominal * (1 + rel * z)], the perturbation every sampled field uses. *)
Definition perturb (nominal rel z : T) : T := nominal * (of_int 1 + rel * z).

(** The body of the loop of lines 94-99. *)
Definition trial (samples : dict (list T)) (p : Params T) (i : nat)
    (ranges_km : list T) : result (list T) :=
  (eta <- sample_at samples "eta" i ;;
   epack <- sample_at samples "epack" i ;;
   ld <- sample_at samples "l_over_d" i ;;
   harvest <- sample_at samples "harvest" i ;;
   sic_gain <- sample_at samples "sic_gain" i ;;
   setitem ranges_km i
     (aeroforge_range_calc eta epack (m_batt_kg p) (m_total_kg p) (g p) ld
        (sfc_eq p) harvest sic_gain cruise_hours_default))%result.

Definition run_aeroforge_montecarlo (n_runs seed : Z)
  : Py rng_state (dict (list T) * list T * Params T) :=
  (_ <- np_random_seed seed ;;
   let samples : dict (list T) := [] in
   (* Battery density: +-25% *)
   z <- np_random_randn n_runs ;;
   let samples := dict_set samples "epack"
     (map (fun z => np_maximum (of_int 200)
                      (perturb (epack_wh_per_kg params_nom) (lit 25 2) z)) z) in
   (* Aerodynamics: +-15% *)
   z <- np_random_randn n_runs ;;
   let samples := dict_set samples "l_over_d"
     (map (fun z => np_maximum (of_int 15)
                      (perturb (l_over_d params_nom) (lit 15 2) z)) z) in
   (* Harvesting: +-40% *)
   z <- np_random_randn n_runs ;;
   let samples := dict_set samples "harvest"
     (map (fun z => np_maximum (of_int 0)
                      (perturb (harvest_kw params_nom) (lit 4 1) z)) z) in
   (* SiC gain: +-20% *)
   z <- np_random_randn n_runs ;;
   let samples := dict_set samples "sic_gain"
     (map (fun z => np_maximum (of_int 1)
                      (perturb (sic_efficiency_gain params_nom) (lit 2 1) z)) z) in
   (* System efficiency: +-10% *)
   z <- np_random_randn n_runs ;;
   let samples := dict_set samples "eta"
     (map (fun z => np_clip (perturb (eta_system params_nom) (lit 1 1) z)
                      (lit 7 1) (lit 98 2)) z) in
   (* Calculate ranges for all samples *)
   let ranges_km := np_zeros n_runs in
   ranges_km <- lift (for_each (seq 0 (Z.to_nat n_runs))
                        (trial samples params_nom) ranges_km) ;;
   ret (samples, ranges_km, params_nom))%py.

End MonteCarlo.

(** ** Statistics (lines 103-139) *)

Section Stats.
Variable T : Type.

(** The dictionary [analyze_results] returns. *)
Record Stats : Type := {
  mean : T;
  std : T;
  median : T;
  p5 : T;
  p95 : T;
  target_5k : T;
  target_10k : T;
  correlations : dict T
}.

End Stats.

Section Statistics.
Context {T : Type} `{Scalar T}.
Local Open Scope num_scope.

(** [len(a)]. *)
Definition len (a : list T) : Z := Z.of_nat (List.length a).

(** The sum of an array is numpy's pairwise summation, in the order of its
    loop [pairwise_sum]: fewer than 8 entries are added left to right from
    [0.]; up to 128 entries go to 8 accumulators, entry [i] to accumulator
    [i mod 8], which are then added as a balanced tree, the last [n mod 8]
    entries being added to the result one by one; a longer array is split
    at [n/2] rounded down to a multiple of 8, and the sums of the two parts
    are added.  At binary64 the order decides the rounding.  (The sign of a
    sum that is zero is not followed.) *)

(** [((r[0] + r[1]) + (r[2] + r[3])) + ((r[4] + r[5]) + (r[6] + r[7]))]. *)
Definition combine8 (r : list T) : T :=
  match r with
  | [r0; r1; r2; r3; r4; r5; r6; r7] =>
      ((r0 + r1) + (r2 + r3)) + ((r4 + r5) + (r6 + r7))
  | _ => of_int 0
  end.

(** [r[j] += a[j]] for the entries of [a]. *)
Fixpoint add_rows (r a : list T) : list T :=
  match r, a with
  | x :: r', y :: a' => (x + y) :: add_rows r' a'
  | _, _ => r
  end.

(** [k] further blocks of 8 entries added to the accumulators; what is
    left of the array is returned with them. *)
Fixpoint accumulate8 (k : nat) (r a : list T) : list T * list T :=
  match k with
  | O => (r, a)
  | S k' => accumulate8 k' (add_rows r (firstn 8 a)) (skipn 8 a)
  end.

(** The middle case, for [8 <= n <= 128]. *)
Definition block_sum (a : list T) : T :=
  let (r, rest) :=
    accumulate8 (List.length a / 8 - 1)%nat (firstn 8 a) (skipn 8 a) in
  fold_left add rest (combine8 r).

(** [fuel] bounds the depth of the splitting; the length of the array is
    enough, since both parts of a split are shorter. *)
Fixpoint pairwise_sum (fuel : nat) (a : list T) : T :=
  let n := List.length a in
  if (n <? 8)%nat then fold_left add a (of_int 0)
  else if (n <=? 128)%nat then block_sum a
  else
    match fuel with
    | O => block_sum a
    | S fuel' =>
        let n2 := (n / 2 - (n / 2) mod 8)%nat in
        pairwise_sum fuel' (firstn n2 a) + pairwise_sum fuel' (skipn n2 a)
    end.

Definition np_sum (a : list T) : T := pairwise_sum (List.length a) a.

Definition np_mean (a : list T) : T := np_sum a / of_int (len a).

(** [np.var(a, ddof)]: squared deviations from the mean, summed and divided
    by [max(n - ddof, 0)]. *)
Definition np_var (ddof : Z) (a : list T) : T :=
  let arrmean := np_mean a in
  let x := map (fun v => v - arrmean) a in
  let x := map (fun v => v * v) x in
  np_sum x / of_int (Z.max (len a - ddof) 0).

(** [np.std(a)], with numpy's default [ddof=0]. *)
Definition np_std (a : list T) : T := sqrt (np_var 0 a).

(** The products of two rows, added left to right.  [np.cov] leaves this sum
    to the linear-algebra library behind [np.dot], whose order of additions
    and use of fused multiply-add are not fixed: at binary64 a coefficient
    computed here can differ from numpy's in its last bits.  No property
    below depends on the order. *)
Fixpoint dot (a b : list T) : T -> T :=
  fun acc =>
    match a, b with
    | x :: a', y :: b' => dot a' b' (acc + x * y)
    | _, _ => acc
    end.

(** [np.corrcoef(x, y)[0,1]]: the covariance matrix of the two rows (with
    [ddof = 1], a non-positive divisor replaced by [0.0]), each entry divided
    by the standard deviation of its row and of its column, then clipped to
    [-1, 1].  Rows of different lengths cannot be stacked. *)
Definition np_corrcoef_01 (x y : list T) : result T :=
  if negb (len x =? len y)%Z then Raise ValueError
  else
    let avg_x := np_mean x in
    let avg_y := np_mean y in
    let fact := if (len x - 1 <=? 0)%Z then of_int 0 else of_int (len x - 1) in
    let X0 := map (fun v => v - avg_x) x in
    let X1 := map (fun v => v - avg_y) y in
    let c00 := dot X0 X0 (of_int 0) * (of_int 1 / fact) in
    let c01 := dot X0 X1 (of_int 0) * (of_int 1 / fact) in
    let c11 := dot X1 X1 (of_int 0) * (of_int 1 / fact) in
    let stddev0 := sqrt c00 in
    let stddev1 := sqrt c11 in
    let c01 := c01 / stddev0 in
    let c01 := c01 / stddev1 in
    Ok (np_clip c01 (of_int (-1)) (of_int 1)).

(** [np.sum(ranges_km >= t) / len(ranges_km) * 100]. *)
Definition achievement (ranges_km : list T) (t : Z) : T :=
  of_int (len (filter (fun v => v >=? of_int t) ranges_km))
  / of_int (len ranges_km) * of_int 100.

(** The loop of lines 127-129. *)
Fixpoint correlation_loop (samples : dict (list T)) (ranges_km : list T)
    (params : list string) (correlations : dict T) : result (dict T) :=
  match params with
  | [] => Ok correlations
  | param :: rest =>
      (a <- dict_getitem samples param ;;
       c <- np_corrcoef_01 a ranges_km ;;
       correlation_loop samples ranges_km rest (dict_set correlations param c))%result
  end.

Definition correlation_analysis (samples : dict (list T)) (ranges_km : list T)
  : result (dict T) :=
  correlation_loop samples ranges_km
    ["epack"; "l_over_d"; "harvest"; "sic_gain"; "eta"] [].

(** numpy's order statistics are not part of the repository and no
    property below reads their values: they are taken as given.  The one
    call [np.percentile(ranges_km, [5, 95])] is read as one call per level,
    and may raise: on an empty array numpy's percentile raises
    [IndexError]. *)
Variable np_median : list T -> T.
Variable np_percentile : list T -> Z -> result T.

Definition analyze_results (samples : dict (list T)) (ranges_km : list T)
  : result (Stats T) :=
  (let mu := np_mean ranges_km in
   let sigma := np_std ranges_km in
   let median_range := np_median ranges_km in
   p5 <- np_percentile ranges_km 5 ;;
   p95 <- np_percentile ranges_km 95 ;;
   let target_5k := achievement ranges_km 5000 in
   let target_10k := achievement ranges_km 10000 in
   correlations <- correlation_analysis samples ranges_km ;;
   Ok {| mean := mu; std := sigma; median := median_range;
         p5 := p5; p95 := p95;
         target_5k := target_5k; target_10k := target_10k;
         correlations := correlations |})%result.

End Statistics.

Unset Implicit Arguments.

(** * Properties *)

(** ** binary64 comparisons *)

Module F64Facts.

Lemma SFcompare_refl (f : spec_float) :
  f <> S754_nan -> SFcompare f f = Some Eq.
Proof.
  destruct f as [s | s | | s m e]; simpl; intros Hn; try congruence.
  - now destruct s.
  - rewrite Z.compare_refl, Pos.compare_cont_refl. now destruct s.
Qed.

Lemma SFcompare_antisym (f1 f2 : spec_float) :
  SFcompare f2 f1 = option_map CompOpp (SFcompare f1 f2).
Proof.
  destruct f1 as [s1 | s1 | | s1 m1 e1], f2 as [s2 | s2 | | s2 m2 e2];
    simpl; try reflexivity;
    try (destruct s1; reflexivity); try (destruct s2; reflexivity);
    try (destruct s1, s2; reflexivity).
  rewrite (Z.compare_antisym e1 e2).
  destruct s1, s2; simpl; try reflexivity;
    destruct (e1 ?= e2)%Z; simpl; try reflexivity.
  - rewrite CompOpp_involutive. f_equal.
    exact (Pos.compare_cont_antisym m2 m1 Eq).
  - f_equal. symmetry. exact (Pos.compare_cont_antisym m1 m2 Eq).
Qed.

Lemma is_nan_spec (x : float) :
  PrimFloat.is_nan x = true <-> Prim2SF x = S754_nan.
Proof.
  unfold PrimFloat.is_nan. rewrite eqb_spec. unfold SFeqb. split.
  - intros Hx. destruct (Prim2SF x) eqn:E; try reflexivity;
      rewrite SFcompare_refl in Hx by congruence; discriminate.
  - intros ->. reflexivity.
Qed.

Lemma not_nan_spec (x : float) :
  PrimFloat.is_nan x = false <-> Prim2SF x <> S754_nan.
Proof.
  rewrite <- is_nan_spec. destruct (PrimFloat.is_nan x); split; congruence.
Qed.

Lemma is_nan_eq (x : float) : PrimFloat.is_nan x = true <-> x = PrimFloat.nan.
Proof.
  rewrite is_nan_spec. split.
  - intros Hx. apply Prim2SF_inj. now rewrite Hx.
  - now intros ->.
Qed.

(** Two numbers that are not NaN are comparable. *)
Lemma leb_total (x y : float) :
  PrimFloat.is_nan x = false -> PrimFloat.is_nan y = false ->
  PrimFloat.leb x y = false -> PrimFloat.leb y x = true.
Proof.
  rewrite !not_nan_spec, !leb_spec. unfold SFleb.
  rewrite (SFcompare_antisym (Prim2SF x) (Prim2SF y)).
  intros Hx Hy.
  destruct (Prim2SF x) eqn:Ex, (Prim2SF y) eqn:Ey; try congruence;
    destruct (SFcompare _ _) as [[ | | ] | ] eqn:Ec; simpl;
    try congruence; try discriminate.
Qed.

Lemma leb_refl (x : float) :
  PrimFloat.is_nan x = false -> PrimFloat.leb x x = true.
Proof.
  rewrite not_nan_spec, leb_spec. unfold SFleb. intros Hx.
  now rewrite SFcompare_refl.
Qed.

(** A comparison that holds has no NaN on either side. *)
Lemma leb_not_nan (x y : float) :
  PrimFloat.leb x y = true ->
  PrimFloat.is_nan x = false /\ PrimFloat.is_nan y = false.
Proof.
  rewrite !not_nan_spec, leb_spec. unfold SFleb. intros Hc.
  split; intros E; rewrite E in Hc; simpl in Hc;
    try discriminate; destruct (Prim2SF x); discriminate.
Qed.

End F64Facts.

(** ** Exact comparisons *)

Module ExactFacts.
Local Open Scope R_scope.

Lemma maximum_Rmax (a b : R) : Exact.maximum a b = Rmax a b.
Proof.
  unfold Exact.maximum, Rmax.
  destruct (Rle_dec b a), (Rle_dec a b); lra.
Qed.

Lemma minimum_Rmin (a b : R) : Exact.minimum a b = Rmin a b.
Proof.
  unfold Exact.minimum, Rmin.
  destruct (Rle_dec a b), (Rle_dec b a); lra.
Qed.

Lemma clamp_Rmax_Rmin (lo hi x : R) :
  clamp lo hi x = Rmax lo (Rmin hi x).
Proof.
  unfold clamp. simpl. now rewrite maximum_Rmax, minimum_Rmin.
Qed.

Lemma clamp_mono (lo hi x y : R) :
  x <= y -> clamp lo hi x <= clamp lo hi y.
Proof.
  intros Hxy. rewrite !clamp_Rmax_Rmin.
  apply Rle_max_compat_l, Rle_min_compat_l, Hxy.
Qed.

(** Below the floor the bounded value is the floor. *)
Lemma clamp_below (lo hi x : R) :
  lo <= hi -> x <= lo -> clamp lo hi x = lo.
Proof.
  intros Hb Hx. rewrite clamp_Rmax_Rmin.
  unfold Rmax, Rmin. destruct (Rle_dec hi x), (Rle_dec lo _); lra.
Qed.

End ExactFacts.

(** ** The range model *)

Section NominalCall.
Context {T : Type} `{Scalar T}.

(** [aeroforge_range_calc] on the nominal parameters, [cruise_hours] left
    to its default. *)
Definition nominal_range : T :=
  aeroforge_range_calc
    (eta_system params_nom) (epack_wh_per_kg params_nom)
    (m_batt_kg params_nom) (m_total_kg params_nom) (g params_nom)
    (l_over_d params_nom) (sfc_eq params_nom) (harvest_kw params_nom)
    (sic_efficiency_gain params_nom) cruise_hours_default.

End NominalCall.

(** The decimal literals of the source, as Rocq's own parser reads them. *)
#[local] Set Warnings "-inexact-float".
Example lit_matches_parser :
  @lit float _ 92 2 = 0.92%float /\
  @lit float _ 980665 5 = 9.80665%float /\
  @lit float _ 15 5 = 0.00015%float /\
  @lit float _ 108 2 = 1.08%float /\
  @lit float _ 7 1 = 0.7%float /\
  @lit float _ 98 2 = 0.98%float.
Proof. repeat split; vm_compute; reflexivity. Qed.
#[local] Set Warnings "inexact-float".

Lemma range_calc_is_spec (T : Type) (S : Scalar T)
    (eta epack mb mt gr ld sfc hv sic ch : T) :
  aeroforge_range_calc eta epack mb mt gr ld sfc hv sic ch
  = RangeModel_spec eta epack mb mt gr ld sfc hv sic ch.
Proof. reflexivity. Qed.

Lemma range_calc_unfold (T : Type) (S : Scalar T)
    (eta epack mb mt gr ld sfc hv sic ch : T) :
  aeroforge_range_calc eta epack mb mt gr ld sfc hv sic ch
  = clamp (of_int 0) (of_int 50000)
      (breguet_r_m eta epack mb mt gr ld sfc hv sic ch / of_int 1000)%num.
Proof. reflexivity. Qed.

Lemma nominal_range_R :
  (@nominal_range R _ = 112674240 / 25889556)%R.
Proof.
  unfold nominal_range. rewrite range_calc_unfold, ExactFacts.clamp_Rmax_Rmin.
  unfold breguet_r_m, params_nom, cruise_hours_default, lit; simpl.
  change (Z.pow_pos 10 2) with 100%Z. change (Z.pow_pos 10 5) with 100000%Z.
  match goal with |- Rmax _ (Rmin _ ?q) = _ =>
    assert (Hq : (q = 112674240 / 25889556)%R) by (field; lra) end.
  rewrite Hq. unfold Rmax, Rmin.
  destruct (Rle_dec _ _); destruct (Rle_dec _ _); lra.
Qed.

(** *** The bounds at binary64 *)

Lemma clamp_float_nan :
  clamp (of_int 0) (of_int 50000) PrimFloat.nan = PrimFloat.nan.
Proof. vm_compute. reflexivity. Qed.

Lemma clamp_float_cases (q : float) :
  PrimFloat.is_nan q = false ->
  let r := clamp (of_int 0) (of_int 50000) q in
  (r = of_int 0 /\ PrimFloat.leb q (of_int 0) = true)
  \/ (r = of_int 50000 /\ PrimFloat.leb (of_int 50000) q = true)
  \/ (r = q /\ PrimFloat.leb (of_int 0) q = true
            /\ PrimFloat.leb q (of_int 50000) = true).
Proof.
  intros Hq. unfold clamp.
  cbn [np_maximum np_minimum of_int Scalar_float].
  unfold F64.maximum, F64.minimum.
  set (hi := F64.of_int 50000). set (lo := F64.of_int 0).
  assert (Hhi : PrimFloat.is_nan hi = false) by (vm_compute; reflexivity).
  assert (Hlo : PrimFloat.is_nan lo = false) by (vm_compute; reflexivity).
  destruct (PrimFloat.leb hi q) eqn:E1; cbn [orb].
  - right; left. split; [ | reflexivity ]. vm_compute. reflexivity.
  - rewrite Hhi. destruct (PrimFloat.leb q lo) eqn:E2; cbn [orb].
    + left. split; reflexivity.
    + rewrite Hlo. right; right. split; [ reflexivity | ].
      split; apply F64Facts.leb_total; assumption.
Qed.

Lemma clamp_float_bounds (q : float) :
  PrimFloat.is_nan q = false ->
  PrimFloat.leb (of_int 0) (clamp (of_int 0) (of_int 50000) q) = true
  /\ PrimFloat.leb (clamp (of_int 0) (of_int 50000) q) (of_int 50000) = true.
Proof.
  intros Hq.
  destruct (clamp_float_cases q Hq) as [[-> _] | [[-> _] | [-> [H0 H1]]]].
  - split; vm_compute; reflexivity.
  - split; vm_compute; reflexivity.
  - now split.
Qed.

Lemma range_value_R (eta epack mb mt gr ld sfc hv sic ch v : R) :
  (breguet_r_m eta epack mb mt gr ld sfc hv sic ch / 1000 = v)%R ->
  (0 <= v <= 50000)%R ->
  aeroforge_range_calc eta epack mb mt gr ld sfc hv sic ch = v.
Proof.
  intros Hq Hv. rewrite range_calc_unfold, ExactFacts.clamp_Rmax_Rmin.
  simpl in *. rewrite Hq. unfold Rmax, Rmin.
  destruct (Rle_dec 50000 v), (Rle_dec 0 _); lra.
Qed.

(** The closed form on real numbers, written flat with the library's
    [Rmax] and [Rmin]. *)
Lemma range_calc_flat_R (eta epack mb mt gr ld sfc hv sic ch : R) :
  aeroforge_range_calc eta epack mb mt gr ld sfc hv sic ch
  = Rmax 0 (Rmin 50000
      (eta * sic * (epack * mb + hv * 1000 * ch) / (gr * ld * sfc * mt)
       / 1000))%R.
Proof. rewrite range_calc_unfold. apply ExactFacts.clamp_Rmax_Rmin. Qed.

(** C2.  [aeroforge_range_calc] is the six-step closed form of the written
    algorithm at every numeric type; the effective efficiency
    [eta_system * sic_efficiency_gain] enters as it is, also above 1 (1.47
    in the third part).  On the nominal parameters it returns a value within
    0.005 of 4.35 km at binary64, and the real number 112674240/25889556 =
    4.3521... in exact arithmetic. *)
Theorem range_model_closed_form :
  (forall (T : Type) (S : Scalar T) (eta epack mb mt gr ld sfc hv sic ch : T),
      aeroforge_range_calc eta epack mb mt gr ld sfc hv sic ch
      = RangeModel_spec eta epack mb mt gr ld sfc hv sic ch)
  /\ (forall eta epack mb mt gr ld sfc hv sic ch : R,
      aeroforge_range_calc eta epack mb mt gr ld sfc hv sic ch
      = Rmax 0 (Rmin 50000
          (eta * sic * (epack * mb + hv * 1000 * ch) / (gr * ld * sfc * mt)
           / 1000))%R)
  /\ (aeroforge_range_calc (98/100) 450 25000 80000 (980665/100000) 22
        (15/100000) 15 (3/2) 6
      = (147/100) * (450 * 25000 + 15 * 1000 * 6) / (25889556/10000) / 1000)%R
  /\ (PrimFloat.leb (lit 4345 3) (@nominal_range float _)
      && PrimFloat.leb (@nominal_range float _) (lit 4355 3) = true)
  /\ (4352 / 1000 < @nominal_range R _ < 4353 / 1000)%R.
Proof.
  split; [ | split; [ | split; [ | split ] ] ].
  - intros. apply range_calc_is_spec.
  - apply range_calc_flat_R.
  - apply range_value_R; [ unfold breguet_r_m; simpl; field | lra ].
  - vm_compute. reflexivity.
  - rewrite nominal_range_R. lra.
Qed.

(** C3, as the code has it.  Whenever the unclamped value [R_m / 1000] is a
    number, the value returned lies in [0, 50000]; when it is NaN, so is
    the value returned. *)
Theorem range_in_bounds_unless_nan
    (eta epack mb mt gr ld sfc hv sic ch : float) :
  let q := (breguet_r_m eta epack mb mt gr ld sfc hv sic ch / of_int 1000)%num in
  let r_km := aeroforge_range_calc eta epack mb mt gr ld sfc hv sic ch in
  (PrimFloat.is_nan q = false ->
   PrimFloat.leb (of_int 0) r_km = true /\ PrimFloat.leb r_km (of_int 50000) = true)
  /\ (PrimFloat.is_nan q = true -> PrimFloat.is_nan r_km = true).
Proof.
  intros q r_km. subst r_km. rewrite range_calc_unfold. fold q. split.
  - apply clamp_float_bounds.
  - intros Hq. apply F64Facts.is_nan_eq in Hq. rewrite Hq.
    rewrite clamp_float_nan. reflexivity.
Qed.

(** C3, refuted as stated: finite positive inputs whose products overflow
    make the quotient [inf / inf], and NaN is returned, which is neither
    [>= 0] nor [<= 50000]. *)
Lemma range_nan_outside_bounds :
  let big : float := 0x1p1000%float in
  let r_km := (aeroforge_range_calc 1 big big 1 big big 1 0 1 6)%float in
  PrimFloat.is_nan r_km = true
  /\ PrimFloat.leb 0 r_km = false /\ PrimFloat.leb r_km 50000 = false.
Proof. vm_compute. repeat split; reflexivity. Qed.

(** *** A zero denominator at binary64 *)

Lemma eqb_zero_spec (d : float) :
  PrimFloat.eqb d PrimFloat.zero = true ->
  exists s, Prim2SF d = S754_zero s.
Proof.
  rewrite eqb_spec. unfold SFeqb.
  change (Prim2SF PrimFloat.zero) with (S754_zero false).
  destruct (Prim2SF d) as [s | s | | s m e]; simpl; intros Hd.
  - now exists s.
  - destruct s; discriminate.
  - discriminate.
  - destruct s; discriminate.
Qed.

(** Division by a zero does not trap: it yields an infinity or NaN. *)
Lemma div_zero_cases (n d : float) :
  PrimFloat.eqb d PrimFloat.zero = true ->
  PrimFloat.div n d = PrimFloat.infinity
  \/ PrimFloat.div n d = PrimFloat.neg_infinity
  \/ PrimFloat.div n d = PrimFloat.nan.
Proof.
  intros Hd. destruct (eqb_zero_spec d Hd) as [s Hs].
  assert (Hq := div_spec n d). rewrite Hs in Hq. unfold SF64div in Hq.
  destruct (Prim2SF n) as [sn | sn | | sn mn en]; simpl in Hq.
  - right; right. apply Prim2SF_inj. now rewrite Hq.
  - destruct (xorb sn s);
      [ right; left | left ]; apply Prim2SF_inj; now rewrite Hq.
  - right; right. apply Prim2SF_inj. now rewrite Hq.
  - destruct (xorb sn s);
      [ right; left | left ]; apply Prim2SF_inj; now rewrite Hq.
Qed.

(** C5, as the code has it.  The function has no guard: when the
    denominator [g * l_over_d * sfc_eq * m_total_kg] is zero the binary64
    division yields an infinity or NaN, and the value returned is 50000, 0
    or NaN. *)
Theorem zero_denominator_returns_value
    (eta epack mb mt gr ld sfc hv sic ch : float) :
  PrimFloat.eqb (denominator gr ld sfc mt) PrimFloat.zero = true ->
  let r_km := aeroforge_range_calc eta epack mb mt gr ld sfc hv sic ch in
  r_km = of_int 50000 \/ r_km = of_int 0 \/ r_km = PrimFloat.nan.
Proof.
  intros Hd r_km. subst r_km. rewrite range_calc_unfold.
  unfold breguet_r_m. fold (denominator gr ld sfc mt).
  cbn [div mul add Scalar_float].
  match goal with |- context [PrimFloat.div ?n (denominator gr ld sfc mt)] =>
    destruct (div_zero_cases n _ Hd) as [-> | [-> | ->]] end.
  - left. vm_compute. reflexivity.
  - right; left. vm_compute. reflexivity.
  - right; right. vm_compute. reflexivity.
Qed.

(** The nominal parameters with [g = 0.0] are such an input. *)
Lemma zero_denominator_returns_value_witness :
  @aeroforge_range_calc float _ (lit 92 2) (of_int 450) (of_int 25000)
    (of_int 80000) (of_int 0) (of_int 22) (lit 15 5) (of_int 15) (lit 108 2)
    (of_int 6) = of_int 50000
  \/ @aeroforge_range_calc float _ (lit 92 2) (of_int 450) (of_int 25000)
    (of_int 80000) (of_int 0) (of_int 22) (lit 15 5) (of_int 15) (lit 108 2)
    (of_int 6) = of_int 0
  \/ @aeroforge_range_calc float _ (lit 92 2) (of_int 450) (of_int 25000)
    (of_int 80000) (of_int 0) (of_int 22) (lit 15 5) (of_int 15) (lit 108 2)
    (of_int 6) = PrimFloat.nan.
Proof.
  apply (zero_denominator_returns_value (lit 92 2) (of_int 450) (of_int 25000)
           (of_int 80000) (of_int 0) (of_int 22) (lit 15 5) (of_int 15)
           (lit 108 2) (of_int 6)).
  vm_compute. reflexivity.
Defined.

(** C5, refuted as stated: the nominal parameters with [g = 0.0] make the
    denominator zero, and the call returns the number 50000.0. *)
Lemma zero_gravity_returns_50000 :
  PrimFloat.eqb (@denominator float _ (of_int 0) (of_int 22) (lit 15 5)
                   (of_int 80000)) PrimFloat.zero = true
  /\ @aeroforge_range_calc float _ (lit 92 2) (of_int 450) (of_int 25000)
       (of_int 80000) (of_int 0) (of_int 22) (lit 15 5) (of_int 15)
       (lit 108 2) (of_int 6) = 50000%float.
Proof. split; vm_compute; reflexivity. Qed.

(** The bounds at the nominal call, whose quotient is a number. *)
Lemma range_in_bounds_nominal :
  PrimFloat.leb (of_int 0) (@nominal_range float _) = true
  /\ PrimFloat.leb (@nominal_range float _) (of_int 50000) = true.
Proof.
  apply (proj1 (range_in_bounds_unless_nan
                  (eta_system params_nom) (epack_wh_per_kg params_nom)
                  (m_batt_kg params_nom) (m_total_kg params_nom) (g params_nom)
                  (l_over_d params_nom) (sfc_eq params_nom)
                  (harvest_kw params_nom) (sic_efficiency_gain params_nom)
                  cruise_hours_default)).
  vm_compute. reflexivity.
Defined.

(** *** Monotonicity of the closed form, in exact arithmetic *)

Section Monotone.
Local Open Scope R_scope.

Lemma denominator_pos (gr ld sfc mt : R) :
  0 < gr -> 0 < ld -> 0 < sfc -> 0 < mt -> 0 < denominator gr ld sfc mt.
Proof.
  intros Hg Hl Hs Hm. unfold denominator; simpl.
  repeat apply Rmult_lt_0_compat; assumption.
Qed.

Lemma denominator_mono (gr ld ld' sfc mt : R) :
  0 < gr -> 0 < sfc -> 0 < mt -> ld <= ld' ->
  denominator gr ld sfc mt <= denominator gr ld' sfc mt.
Proof.
  intros Hg Hs Hm Hl. unfold denominator; simpl.
  apply Rmult_le_compat_r; [ lra | ].
  apply Rmult_le_compat_r; [ lra | ].
  apply Rmult_le_compat_l; lra.
Qed.

Lemma r_m_mono_epack (eta epack epack' mb mt gr ld sfc hv sic ch : R) :
  0 < denominator gr ld sfc mt ->
  0 <= eta * sic * mb -> epack <= epack' ->
  breguet_r_m eta epack mb mt gr ld sfc hv sic ch
  <= breguet_r_m eta epack' mb mt gr ld sfc hv sic ch.
Proof.
  intros Hd He Hp. unfold breguet_r_m. fold (denominator gr ld sfc mt).
  simpl. apply Rmult_le_compat_r.
  - left. now apply Rinv_0_lt_compat.
  - assert (0 <= eta * sic * mb * (epack' - epack))
      by (apply Rmult_le_pos; lra).
    lra.
Qed.

Lemma r_m_antitone_l_over_d (eta epack mb mt gr ld ld' sfc hv sic ch : R) :
  0 < gr -> 0 < ld -> 0 < sfc -> 0 < mt -> ld <= ld' ->
  0 <= eta * sic * (epack * mb + hv * 1000 * ch) ->
  breguet_r_m eta epack mb mt gr ld' sfc hv sic ch
  <= breguet_r_m eta epack mb mt gr ld sfc hv sic ch.
Proof.
  intros Hg Hl Hs Hm Hll Hn. unfold breguet_r_m.
  fold (denominator gr ld sfc mt). fold (denominator gr ld' sfc mt). simpl.
  apply Rmult_le_compat_l; [ exact Hn | ].
  apply Rinv_le_contravar.
  - now apply denominator_pos.
  - now apply denominator_mono.
Qed.

Lemma r_m_negative (eta epack mb mt gr ld sfc hv sic ch : R) :
  0 < denominator gr ld sfc mt ->
  eta * sic * (epack * mb + hv * 1000 * ch) <= 0 ->
  breguet_r_m eta epack mb mt gr ld sfc hv sic ch / 1000 <= 0.
Proof.
  intros Hd Hn. unfold breguet_r_m. fold (denominator gr ld sfc mt). simpl.
  apply Rinv_0_lt_compat in Hd.
  assert (eta * sic * (epack * mb + hv * 1000 * ch)
          * / denominator gr ld sfc mt <= 0).
  { rewrite <- (Rmult_0_l (/ denominator gr ld sfc mt)).
    apply Rmult_le_compat_r; lra. }
  unfold denominator in H; simpl in H. unfold Rdiv. lra.
Qed.

Lemma km_mono (x y : R) :
  x <= y -> (x / of_int 1000)%num <= (y / of_int 1000)%num.
Proof. intros Hxy. simpl. lra. Qed.

End Monotone.

(** C1, as the code has it.  With positive denominator factors the returned
    range is non-decreasing in [epack_wh_per_kg] as long as
    [eta_system * sic_efficiency_gain * m_batt_kg] is not negative, and it is
    non-increasing in [l_over_d], which is a factor of the denominator. *)
Theorem range_monotone_epack_antitone_l_over_d
    (eta epack epack' mb mt gr ld ld' sfc hv sic ch : R) :
  (0 < gr)%R -> (0 < ld)%R -> (0 < sfc)%R -> (0 < mt)%R ->
  ((0 <= eta * sic * mb)%R -> (epack <= epack')%R ->
   (aeroforge_range_calc eta epack mb mt gr ld sfc hv sic ch
    <= aeroforge_range_calc eta epack' mb mt gr ld sfc hv sic ch)%R)
  /\ ((ld <= ld')%R ->
      (aeroforge_range_calc eta epack mb mt gr ld' sfc hv sic ch
       <= aeroforge_range_calc eta epack mb mt gr ld sfc hv sic ch)%R).
Proof.
  intros Hg Hl Hs Hm. rewrite !range_calc_unfold. split.
  - intros He Hp. apply ExactFacts.clamp_mono, km_mono.
    apply r_m_mono_epack; try assumption.
    now apply denominator_pos.
  - intros Hll.
    destruct (Rle_dec 0 (eta * sic * (epack * mb + hv * 1000 * ch))) as [Hn | Hn].
    + apply ExactFacts.clamp_mono, km_mono.
      now apply r_m_antitone_l_over_d.
    + rewrite !ExactFacts.clamp_below; simpl; try lra.
      * apply r_m_negative; [ apply denominator_pos | ]; lra.
      * apply r_m_negative; [ apply denominator_pos | ]; lra.
Qed.


(** At the nominal parameters: pack energy 450 -> 500 does not lower the
    range, lift-to-drag 22 -> 44 does not raise it. *)
Lemma range_monotone_epack_antitone_l_over_d_witness :
  (aeroforge_range_calc (92/100) 450 25000 80000 (980665/100000) 22
     (15/100000) 15 (108/100) 6
   <= aeroforge_range_calc (92/100) 500 25000 80000 (980665/100000) 22
        (15/100000) 15 (108/100) 6)%R
  /\ (aeroforge_range_calc (92/100) 450 25000 80000 (980665/100000) 44
        (15/100000) 15 (108/100) 6
      <= aeroforge_range_calc (92/100) 450 25000 80000 (980665/100000) 22
           (15/100000) 15 (108/100) 6)%R.
Proof.
  assert (Hg : (0 < 980665/100000)%R) by lra.
  assert (Hl : (0 < 22)%R) by lra.
  assert (Hs : (0 < 15/100000)%R) by lra.
  assert (Hm : (0 < 80000)%R) by lra.
  destruct (range_monotone_epack_antitone_l_over_d
              (92/100) 450 500 25000 80000 (980665/100000) 22 44
              (15/100000) 15 (108/100) 6 Hg Hl Hs Hm) as [Hepack Hld].
  split; [ apply Hepack | apply Hld ]; lra.
Defined.

(** C1, refuted as stated: at the nominal parameters, all denominator
    factors positive, raising [l_over_d] from 22 to 44 halves the range. *)
Lemma range_decreases_in_l_over_d :
  (0 < 980665/100000 /\ 0 < 22 /\ 0 < 15/100000 /\ 0 < 80000 /\ 22 <= 44)%R
  /\ (aeroforge_range_calc (92/100) 450 25000 80000 (980665/100000) 44
        (15/100000) 15 (108/100) 6
      < aeroforge_range_calc (92/100) 450 25000 80000 (980665/100000) 22
          (15/100000) 15 (108/100) 6)%R.
Proof.
  split; [ lra | ].
  rewrite (range_value_R _ _ _ _ _ 44 _ _ _ _ (112674240 / 51779112))%R;
    [ | unfold breguet_r_m; simpl; field | lra ].
  rewrite (range_value_R _ _ _ _ _ 22 _ _ _ _ (112674240 / 25889556))%R;
    [ | unfold breguet_r_m; simpl; field | lra ].
  lra.
Qed.

(** The same two calls at binary64. *)
Example range_decreases_in_l_over_d_float :
  @aeroforge_range_calc float _ (lit 92 2) (of_int 450) (of_int 25000)
    (of_int 80000) (lit 980665 5) (of_int 22) (lit 15 5) (of_int 15)
    (lit 108 2) (of_int 6) = 0x1.1688ff949e8e6p+2%float
  /\ @aeroforge_range_calc float _ (lit 92 2) (of_int 450) (of_int 25000)
    (of_int 80000) (lit 980665 5) (of_int 44) (lit 15 5) (of_int 15)
    (lit 108 2) (of_int 6) = 0x1.1688ff949e8e6p+1%float.
Proof. split; vm_compute; reflexivity. Qed.

(** ** The Monte-Carlo driver *)

Lemma list_set_app {A} (pre rest : list A) (x v : A) :
  list_set (pre ++ x :: rest) (List.length pre) v = pre ++ v :: rest.
Proof.
  induction pre as [ | y pre IH]; simpl; [ reflexivity | now rewrite IH ].
Qed.

Lemma getitem_nth {A} (a : list A) (i : nat) (d : A) :
  (i < List.length a)%nat -> getitem a i = Ok (nth i a d).
Proof.
  intros Hi. unfold getitem.
  now rewrite (nth_error_nth' a d Hi).
Qed.

Lemma samples_dict_built {V} (a b c d e : V) :
  dict_set (dict_set (dict_set (dict_set (dict_set [] "epack" a)
    "l_over_d" b) "harvest" c) "sic_gain" d) "eta" e
  = [("epack", a); ("l_over_d", b); ("harvest", c); ("sic_gain", d); ("eta", e)].
Proof. reflexivity. Qed.

Section MonteCarloFacts.
Context {T : Type} `{Scalar T}.
Variable rng_state : Type.
Variable init_by_seed : Z -> rng_state.
Variable gauss : rng_state -> T * rng_state.

(** The generator state after [k] draws, and the [k]-th draw (from 0). *)
Definition state_after (k : nat) (s : rng_state) : rng_state :=
  snd (draw gauss k s).

Definition nth_draw (s : rng_state) (k : nat) : T :=
  fst (gauss (state_after k s)).

Lemma draw_S (n : nat) (s : rng_state) :
  draw gauss (S n) s
  = (fst (gauss s) :: fst (draw gauss n (snd (gauss s))),
     snd (draw gauss n (snd (gauss s)))).
Proof.
  simpl. destruct (gauss s) as [z s1]. simpl.
  now destruct (draw gauss n s1).
Qed.

Lemma draw_length (n : nat) (s : rng_state) :
  List.length (fst (draw gauss n s)) = n.
Proof.
  revert s. induction n as [ | n IH]; intros s; [ reflexivity | ].
  rewrite draw_S. simpl. now rewrite IH.
Qed.

Lemma state_after_S (k : nat) (s : rng_state) :
  state_after (S k) s = state_after k (snd (gauss s)).
Proof. unfold state_after. now rewrite draw_S. Qed.

Lemma state_after_add (a b : nat) (s : rng_state) :
  state_after (a + b) s = state_after b (state_after a s).
Proof.
  revert s. induction a as [ | a IH]; intros s; [ reflexivity | ].
  simpl plus. rewrite !state_after_S. apply IH.
Qed.

Lemma nth_draw_shift (a i : nat) (s : rng_state) :
  nth_draw (state_after a s) i = nth_draw s (a + i).
Proof. unfold nth_draw. now rewrite state_after_add. Qed.

Lemma draw_nth_error (n i : nat) (s : rng_state) :
  (i < n)%nat -> nth_error (fst (draw gauss n s)) i = Some (nth_draw s i).
Proof.
  revert i s. induction n as [ | n IH]; intros i s Hi; [ lia | ].
  rewrite draw_S. destruct i as [ | i]; simpl.
  - reflexivity.
  - rewrite IH by lia. unfold nth_draw. now rewrite state_after_S.
Qed.

(** What one trial stores at index [i]. *)
Definition range_at (p : Params T) (eta epack ld harvest sic_gain : list T)
    (i : nat) : T :=
  aeroforge_range_calc
    (nth i eta (of_int 0)) (nth i epack (of_int 0)) (m_batt_kg p) (m_total_kg p)
    (g p) (nth i ld (of_int 0)) (sfc_eq p) (nth i harvest (of_int 0))
    (nth i sic_gain (of_int 0)) cruise_hours_default.

Section Loop.
Variables (p : Params T) (eta epack ld harvest sic_gain : list T) (n : nat).
Hypothesis len_eta : List.length eta = n.
Hypothesis len_epack : List.length epack = n.
Hypothesis len_ld : List.length ld = n.
Hypothesis len_harvest : List.length harvest = n.
Hypothesis len_sic_gain : List.length sic_gain = n.

Let samples : dict (list T) :=
  [("epack", epack); ("l_over_d", ld); ("harvest", harvest);
   ("sic_gain", sic_gain); ("eta", eta)].

Lemma trial_step (pre rest : list T) (x : T) :
  (List.length pre < n)%nat ->
  trial samples p (List.length pre) (pre ++ x :: rest)
  = Ok (pre ++ range_at p eta epack ld harvest sic_gain (List.length pre) :: rest).
Proof.
  intros Hk. unfold trial, sample_at, samples, dict_getitem. simpl dict_get.
  cbn [bind_result].
  rewrite (getitem_nth eta _ (of_int 0)) by lia.
  rewrite (getitem_nth epack _ (of_int 0)) by lia.
  rewrite (getitem_nth ld _ (of_int 0)) by lia.
  rewrite (getitem_nth harvest _ (of_int 0)) by lia.
  rewrite (getitem_nth sic_gain _ (of_int 0)) by lia.
  cbn [bind_result]. unfold setitem.
  assert (Hlt : (List.length pre <? List.length (pre ++ x :: rest))%nat = true).
  { apply Nat.ltb_lt. rewrite length_app. simpl. lia. }
  rewrite Hlt, list_set_app. reflexivity.
Qed.

Lemma for_each_trial_from (m : nat) (pre : list T) :
  (List.length pre + m = n)%nat ->
  for_each (seq (List.length pre) m) (trial samples p)
    (pre ++ repeat (of_int 0) m)
  = Ok (pre ++ map (range_at p eta epack ld harvest sic_gain)
                 (seq (List.length pre) m)).
Proof.
  revert pre. induction m as [ | m IH]; intros pre Hn; [ reflexivity | ].
  cbn [seq repeat for_each map].
  rewrite trial_step by lia. cbn [bind_result].
  specialize (IH (pre ++ [range_at p eta epack ld harvest sic_gain
                            (List.length pre)])).
  rewrite length_app, Nat.add_1_r in IH. simpl List.length in IH.
  rewrite <- !app_assoc in IH. simpl app in IH.
  apply IH. lia.
Qed.

Lemma for_each_trial :
  for_each (seq 0 n) (trial samples p) (repeat (of_int 0) n)
  = Ok (map (range_at p eta epack ld harvest sic_gain) (seq 0 n)).
Proof. apply (for_each_trial_from n []). reflexivity. Qed.

End Loop.

End MonteCarloFacts.

Arguments state_after {T rng_state} gauss k s.
Arguments nth_draw {T rng_state} gauss s k.

Section MonteCarloRun.
Context {T : Type} `{Scalar T}.
Variable rng_state : Type.
Variable init_by_seed : Z -> rng_state.
Variable gauss : rng_state -> T * rng_state.

Lemma bind_ok {A B} (c : Py rng_state A) (k : A -> Py rng_state B)
    (s s' : rng_state) (a : A) :
  c s = (Ok a, s') -> bind c k s = k a s'.
Proof. intros Hc. unfold bind. now rewrite Hc. Qed.

Lemma bind_raise {A B} (c : Py rng_state A) (k : A -> Py rng_state B)
    (s s' : rng_state) (e : exn) :
  c s = (Raise e, s') -> bind c k s = (Raise e, s').
Proof. intros Hc. unfold bind. now rewrite Hc. Qed.

Lemma seed_ok (seed : Z) (s0 : rng_state) :
  (0 <= seed < 2 ^ 32)%Z ->
  np_random_seed init_by_seed seed s0 = (Ok tt, init_by_seed seed).
Proof.
  intros [Hlo Hhi]. unfold np_random_seed.
  apply Z.leb_le in Hlo. apply Z.ltb_lt in Hhi. now rewrite Hlo, Hhi.
Qed.

Lemma seed_refused (seed : Z) (s0 : rng_state) :
  ~ (0 <= seed < 2 ^ 32)%Z ->
  np_random_seed init_by_seed seed s0 = (Raise ValueError, s0).
Proof.
  intros Hs. unfold np_random_seed.
  destruct (0 <=? seed)%Z eqn:E1; [ | reflexivity ].
  destruct (seed <? 2 ^ 32)%Z eqn:E2; [ | reflexivity ].
  apply Z.leb_le in E1. apply Z.ltb_lt in E2. lia.
Qed.

Lemma randn_ok (n : Z) (s : rng_state) :
  (0 <= n)%Z ->
  np_random_randn gauss n s
  = (Ok (fst (draw gauss (Z.to_nat n) s)), state_after gauss (Z.to_nat n) s).
Proof.
  intros Hn. unfold np_random_randn, state_after.
  apply Z.ltb_ge in Hn. rewrite Hn.
  now destruct (draw gauss (Z.to_nat n) s).
Qed.

Lemma randn_refused (n : Z) (s : rng_state) :
  (n < 0)%Z -> np_random_randn gauss n s = (Raise ValueError, s).
Proof.
  intros Hn. unfold np_random_randn. apply Z.ltb_lt in Hn. now rewrite Hn.
Qed.

(** The five sampling rules of lines 71-89, one draw at a time. *)
Definition sample_epack (z : T) : T :=
  np_maximum (of_int 200) (perturb (of_int 450) (lit 25 2) z).
Definition sample_l_over_d (z : T) : T :=
  np_maximum (of_int 15) (perturb (of_int 22) (lit 15 2) z).
Definition sample_harvest (z : T) : T :=
  np_maximum (of_int 0) (perturb (of_int 15) (lit 4 1) z).
Definition sample_sic_gain (z : T) : T :=
  np_maximum (of_int 1) (perturb (lit 108 2) (lit 2 1) z).
Definition sample_eta (z : T) : T :=
  np_clip (perturb (lit 92 2) (lit 1 1) z) (lit 7 1) (lit 98 2).

(** The [j]-th block of [n] draws after seeding. *)
Definition block (seed : Z) (n j : nat) : list T :=
  fst (draw gauss n (state_after gauss (j * n) (init_by_seed seed))).

Lemma block_length (seed : Z) (n j : nat) : List.length (block seed n j) = n.
Proof. apply draw_length. Qed.

Lemma block_nth_error (seed : Z) (n j i : nat) :
  (i < n)%nat ->
  nth_error (block seed n j) i
  = Some (nth_draw gauss (init_by_seed seed) (j * n + i)).
Proof.
  intros Hi. unfold block. rewrite draw_nth_error by assumption.
  now rewrite nth_draw_shift.
Qed.

(** The arrays a successful run returns. *)
Definition samples_of (seed : Z) (n : nat) : dict (list T) :=
  [("epack", map sample_epack (block seed n 0));
   ("l_over_d", map sample_l_over_d (block seed n 1));
   ("harvest", map sample_harvest (block seed n 2));
   ("sic_gain", map sample_sic_gain (block seed n 3));
   ("eta", map sample_eta (block seed n 4))].

Definition ranges_of (seed : Z) (n : nat) : list T :=
  map (range_at params_nom
         (map sample_eta (block seed n 4))
         (map sample_epack (block seed n 0))
         (map sample_l_over_d (block seed n 1))
         (map sample_harvest (block seed n 2))
         (map sample_sic_gain (block seed n 3)))
      (seq 0 n).

(** With a seed numpy accepts and a trial count that is not negative, the
    driver returns, having consumed [5 * n_runs] draws. *)
Lemma run_ok (n_runs seed : Z) (s0 : rng_state) :
  (0 <= n_runs)%Z -> (0 <= seed < 2 ^ 32)%Z ->
  run_aeroforge_montecarlo init_by_seed gauss n_runs seed s0
  = (Ok (samples_of seed (Z.to_nat n_runs),
         ranges_of seed (Z.to_nat n_runs), params_nom),
     state_after gauss (5 * Z.to_nat n_runs) (init_by_seed seed)).
Proof.
  intros Hn Hseed. unfold run_aeroforge_montecarlo.
  set (n := Z.to_nat n_runs).
  rewrite (bind_ok _ _ _ _ _ (seed_ok seed s0 Hseed)).
  rewrite (bind_ok _ _ _ _ _ (randn_ok n_runs _ Hn)).
  rewrite (bind_ok _ _ _ _ _ (randn_ok n_runs _ Hn)).
  rewrite (bind_ok _ _ _ _ _ (randn_ok n_runs _ Hn)).
  rewrite (bind_ok _ _ _ _ _ (randn_ok n_runs _ Hn)).
  rewrite (bind_ok _ _ _ _ _ (randn_ok n_runs _ Hn)).
  fold n. rewrite <- !state_after_add.
  replace (n + n + n + n + n)%nat with (5 * n)%nat by lia.
  rewrite samples_dict_built.
  change (fst (draw gauss n (init_by_seed seed))) with (block seed n 0).
  replace (fst (draw gauss n (state_after gauss n (init_by_seed seed))))
    with (block seed n 1) by (unfold block; do 3 f_equal; lia).
  replace (fst (draw gauss n (state_after gauss (n + n) (init_by_seed seed))))
    with (block seed n 2) by (unfold block; do 3 f_equal; lia).
  replace (fst (draw gauss n (state_after gauss (n + n + n) (init_by_seed seed))))
    with (block seed n 3) by (unfold block; do 3 f_equal; lia).
  replace (fst (draw gauss n (state_after gauss (n + n + n + n) (init_by_seed seed))))
    with (block seed n 4) by (unfold block; do 3 f_equal; lia).
  unfold bind, lift, np_zeros. fold n.
  rewrite (for_each_trial params_nom _ _ _ _ _ n)
    by (rewrite length_map; apply block_length).
  reflexivity.
Qed.

End MonteCarloRun.

Arguments block {T rng_state} init_by_seed gauss seed n j.
Arguments samples_of {T H rng_state} init_by_seed gauss seed n.
Arguments ranges_of {T H rng_state} init_by_seed gauss seed n.

(** ** Rounding never invents a NaN *)

Module RoundFacts.

Section Rounding.
Variables prec emax : Z.

Lemma shr_1_nonneg (mrs : shr_record) :
  (0 <= shr_m mrs)%Z -> (0 <= shr_m (shr_1 mrs))%Z.
Proof.
  destruct mrs as [m r s]. destruct m as [ | p | p]; simpl; intros Hm.
  - lia.
  - destruct p; simpl; lia.
  - lia.
Qed.

Lemma iter_pos_inv {A} (P : A -> Prop) (f : A -> A) :
  (forall x, P x -> P (f x)) ->
  forall (p : positive) (x : A), P x -> P (SpecFloat.iter_pos f p x).
Proof.
  intros Hf. induction p as [p IH | p IH | ]; intros x Hx; simpl.
  - apply IH, IH, Hf, Hx.
  - apply IH, IH, Hx.
  - apply Hf, Hx.
Qed.

Lemma shr_nonneg (mrs : shr_record) (e n : Z) :
  (0 <= shr_m mrs)%Z -> (0 <= shr_m (fst (shr mrs e n)))%Z.
Proof.
  intros Hm. unfold shr. destruct n as [ | p | p]; simpl; try assumption.
  apply (iter_pos_inv (fun r => 0 <= shr_m r)%Z); [ apply shr_1_nonneg | exact Hm ].
Qed.

Lemma shr_record_of_loc_m (m : Z) (l : location) :
  shr_m (shr_record_of_loc m l) = m.
Proof. destruct l as [ | [ | | ]]; reflexivity. Qed.

Lemma shr_fexp_nonneg (m e : Z) (l : location) :
  (0 <= m)%Z -> (0 <= shr_m (fst (shr_fexp prec emax m e l)))%Z.
Proof.
  intros Hm. unfold shr_fexp. apply shr_nonneg.
  now rewrite shr_record_of_loc_m.
Qed.

Lemma round_nearest_even_nonneg (m : Z) (l : location) :
  (0 <= m)%Z -> (0 <= round_nearest_even m l)%Z.
Proof.
  intros Hm. destruct l as [ | [ | | ]]; simpl; try lia.
  destruct (Z.even m); lia.
Qed.

Lemma binary_round_aux_not_nan (sx : bool) (mx ex : Z) (lx : location) :
  (0 <= mx)%Z -> binary_round_aux prec emax sx mx ex lx <> S754_nan.
Proof.
  intros Hm. unfold binary_round_aux.
  pose proof (shr_fexp_nonneg mx ex lx Hm) as H1.
  destruct (shr_fexp prec emax mx ex lx) as [mrs' e']. simpl in H1.
  pose proof (shr_fexp_nonneg _ e' loc_Exact
                (round_nearest_even_nonneg _ (loc_of_shr_record mrs') H1)) as H2.
  destruct (shr_fexp prec emax _ e' loc_Exact) as [mrs'' e'']. simpl in H2.
  destruct (shr_m mrs'') as [ | m | m]; try discriminate; [ | lia ].
  destruct (e'' <=? emax - prec)%Z; discriminate.
Qed.

Lemma binary_round_not_nan (sx : bool) (mx : positive) (ex : Z) :
  binary_round prec emax sx mx ex <> S754_nan.
Proof.
  unfold binary_round. destruct (shl_align _ _ _) as [mz ez].
  apply binary_round_aux_not_nan. lia.
Qed.

Lemma binary_normalize_not_nan (m e : Z) (szero : bool) :
  binary_normalize prec emax m e szero <> S754_nan.
Proof.
  destruct m; simpl; try discriminate; apply binary_round_not_nan.
Qed.

(** A finite number that is not a zero. *)
Definition finite_nonzero (f : spec_float) : bool :=
  match f with
  | S754_finite _ _ _ => true
  | _ => false
  end.

Lemma SFmul_not_nan (x y : spec_float) :
  finite_nonzero x = true -> y <> S754_nan -> SFmul prec emax x y <> S754_nan.
Proof.
  destruct x as [ | | | sx mx ex]; try discriminate. intros _ Hy.
  destruct y as [sy | sy | | sy my ey]; simpl; try discriminate; try congruence.
  apply binary_round_aux_not_nan. lia.
Qed.

Lemma SFadd_not_nan (x y : spec_float) :
  finite_nonzero x = true -> y <> S754_nan -> SFadd prec emax x y <> S754_nan.
Proof.
  destruct x as [ | | | sx mx ex]; try discriminate. intros _ Hy.
  destruct y as [sy | sy | | sy my ey]; simpl; try discriminate; try congruence.
  apply binary_normalize_not_nan.
Qed.

End Rounding.

(** A perturbed nominal value is a number whenever the draw is. *)
Lemma perturb_not_nan (nominal rel z : float) :
  finite_nonzero (Prim2SF nominal) = true ->
  finite_nonzero (Prim2SF rel) = true ->
  PrimFloat.is_nan z = false ->
  PrimFloat.is_nan (perturb nominal rel z) = false.
Proof.
  intros Hn Hr Hz. apply F64Facts.not_nan_spec in Hz.
  apply F64Facts.not_nan_spec. unfold perturb.
  cbn [mul add of_int Scalar_float].
  rewrite mul_spec, add_spec, mul_spec.
  apply SFmul_not_nan; [ exact Hn | ].
  apply SFadd_not_nan; [ vm_compute; reflexivity | ].
  apply SFmul_not_nan; assumption.
Qed.

End RoundFacts.

(** ** Floors and clips at binary64 *)

Lemma maximum_floor (c x : float) :
  PrimFloat.is_nan c = false -> PrimFloat.is_nan x = false ->
  PrimFloat.leb c (F64.maximum c x) = true.
Proof.
  intros Hc Hx. unfold F64.maximum. rewrite Hc, orb_false_r.
  destruct (PrimFloat.leb x c) eqn:E.
  - now apply F64Facts.leb_refl.
  - now apply F64Facts.leb_total.
Qed.

Lemma clip_bounds (x lo hi : float) :
  PrimFloat.is_nan x = false -> PrimFloat.leb lo hi = true ->
  PrimFloat.leb lo (np_clip x lo hi) = true
  /\ PrimFloat.leb (np_clip x lo hi) hi = true.
Proof.
  intros Hx Hlh. destruct (F64Facts.leb_not_nan lo hi Hlh) as [Hlo Hhi].
  unfold np_clip. cbn [np_maximum np_minimum Scalar_float].
  assert (Hm : PrimFloat.leb lo (F64.maximum x lo) = true).
  { unfold F64.maximum. rewrite Hx, orb_false_r.
    destruct (PrimFloat.leb lo x) eqn:E; [ assumption | ].
    now apply F64Facts.leb_refl. }
  destruct (F64Facts.leb_not_nan _ _ Hm) as [_ Hmn].
  unfold F64.minimum at 1 2. rewrite Hhi, orb_false_r.
  destruct (PrimFloat.leb hi (F64.maximum x lo)) eqn:E.
  - split; [ assumption | now apply F64Facts.leb_refl ].
  - split; [ assumption | now apply F64Facts.leb_total ].
Qed.

Section Draws.
Context {T : Type}.
Variable rng_state : Type.
Variable gauss : rng_state -> T * rng_state.

(** Every element of a batch of draws is the output of one call. *)
Lemma draw_In (n : nat) (s : rng_state) (z : T) :
  In z (fst (draw gauss n s)) -> exists s', z = fst (gauss s').
Proof.
  revert s. induction n as [ | n IH]; intros s; [ intros [] | ].
  rewrite draw_S. simpl. intros [<- | Hin].
  - now exists s.
  - now apply IH in Hin.
Qed.

Lemma Forall_map_draw (P : T -> Prop) (f : T -> T) (n : nat) (s : rng_state) :
  (forall s', P (f (fst (gauss s')))) ->
  Forall P (map f (fst (draw gauss n s))).
Proof.
  intros Hf. apply Forall_forall. intros v Hv.
  apply in_map_iff in Hv. destruct Hv as [z [<- Hz]].
  apply draw_In in Hz. destruct Hz as [s' ->]. apply Hf.
Qed.

End Draws.

(** C6.  With a generator whose draws are never NaN (numpy's [randn]
    returns finite numbers), a seed numpy accepts and a trial count that is
    not negative, the driver returns the five sample arrays and every value
    in them respects its bound: pack specific energy >= 200, lift-to-drag
    >= 15, harvested power >= 0, SiC gain >= 1.0 and system efficiency in
    [0.70, 0.98]. *)
Theorem samples_respect_floors (rng_state : Type)
    (init_by_seed : Z -> rng_state) (gauss : rng_state -> float * rng_state)
    (n_runs seed : Z) (s0 : rng_state) :
  (forall s, PrimFloat.is_nan (fst (gauss s)) = false) ->
  (0 <= n_runs)%Z -> (0 <= seed < 2 ^ 32)%Z ->
  exists epack ld harvest sic_gain eta ranges_km s',
    run_aeroforge_montecarlo init_by_seed gauss n_runs seed s0
    = (Ok ([("epack", epack); ("l_over_d", ld); ("harvest", harvest);
            ("sic_gain", sic_gain); ("eta", eta)], ranges_km, params_nom), s')
    /\ Forall (fun v => PrimFloat.leb (of_int 200) v = true) epack
    /\ Forall (fun v => PrimFloat.leb (of_int 15) v = true) ld
    /\ Forall (fun v => PrimFloat.leb (of_int 0) v = true) harvest
    /\ Forall (fun v => PrimFloat.leb (of_int 1) v = true) sic_gain
    /\ Forall (fun v => PrimFloat.leb (lit 7 1) v = true
                        /\ PrimFloat.leb v (lit 98 2) = true) eta.
Proof.
  intros Hgauss Hn Hseed.
  rewrite (run_ok rng_state init_by_seed gauss n_runs seed s0 Hn Hseed).
  unfold samples_of. do 7 eexists. split; [ reflexivity | ].
  repeat split; unfold block; apply Forall_map_draw; intros s'.
  - apply maximum_floor; [ vm_compute; reflexivity | ].
    apply RoundFacts.perturb_not_nan;
      [ vm_compute; reflexivity | vm_compute; reflexivity | apply Hgauss ].
  - apply maximum_floor; [ vm_compute; reflexivity | ].
    apply RoundFacts.perturb_not_nan;
      [ vm_compute; reflexivity | vm_compute; reflexivity | apply Hgauss ].
  - apply maximum_floor; [ vm_compute; reflexivity | ].
    apply RoundFacts.perturb_not_nan;
      [ vm_compute; reflexivity | vm_compute; reflexivity | apply Hgauss ].
  - apply maximum_floor; [ vm_compute; reflexivity | ].
    apply RoundFacts.perturb_not_nan;
      [ vm_compute; reflexivity | vm_compute; reflexivity | apply Hgauss ].
  - apply clip_bounds; [ | vm_compute; reflexivity ].
    apply RoundFacts.perturb_not_nan;
      [ vm_compute; reflexivity | vm_compute; reflexivity | apply Hgauss ].
Qed.

(** A two-state stand-in for numpy's generator, to run the driver on: its
    draws alternate between -2.5 and 1.5. *)
Definition toy_seed (seed : Z) : bool := Z.odd seed.

Definition toy_gauss (s : bool) : float * bool :=
  (if s then lit 15 1 else lit (-25) 1, negb s).

(** Three trials from seed 42 on the two-state generator. *)
Lemma samples_respect_floors_witness :
  exists epack ld harvest sic_gain eta ranges_km s',
    run_aeroforge_montecarlo toy_seed toy_gauss 3 42 false
    = (Ok ([("epack", epack); ("l_over_d", ld); ("harvest", harvest);
            ("sic_gain", sic_gain); ("eta", eta)], ranges_km, params_nom), s')
    /\ Forall (fun v => PrimFloat.leb (of_int 200) v = true) epack
    /\ Forall (fun v => PrimFloat.leb (of_int 15) v = true) ld
    /\ Forall (fun v => PrimFloat.leb (of_int 0) v = true) harvest
    /\ Forall (fun v => PrimFloat.leb (of_int 1) v = true) sic_gain
    /\ Forall (fun v => PrimFloat.leb (lit 7 1) v = true
                        /\ PrimFloat.leb v (lit 98 2) = true) eta.
Proof.
  apply (samples_respect_floors bool toy_seed toy_gauss 3 42 false).
  - intros [ | ]; vm_compute; reflexivity.
  - lia.
  - lia.
Defined.

(** That run, computed: draws below the floors are raised to them. *)
Example toy_run :
  fst (run_aeroforge_montecarlo toy_seed toy_gauss 3 42 false)
  = Ok ([("epack", [200; 618.75; 200]%float);
         ("l_over_d", [0x1.af33333333334p+4; 15; 0x1.af33333333334p+4]%float);
         ("harvest", [0; 24; 0]%float);
         ("sic_gain", [0x1.676c8b4395811p+0; 1; 0x1.676c8b4395811p+0]%float);
         ("eta", [0x1.6666666666666p-1; 0x1.f5c28f5c28f5cp-1;
                  0x1.6666666666666p-1]%float)],
        [0x1.8ca80774ec712p+0; 0x1.155f2d32f483fp+3; 0x1.8ca80774ec712p+0]%float,
        params_nom).
Proof. vm_compute. reflexivity. Qed.

Section SamplesByIndex.
Context {T : Type} `{Scalar T}.
Variable rng_state : Type.
Variable init_by_seed : Z -> rng_state.
Variable gauss : rng_state -> T * rng_state.

Lemma getitem_map_block (f : T -> T) (seed : Z) (n j i : nat) :
  (i < n)%nat ->
  getitem (map f (block init_by_seed gauss seed n j)) i
  = Ok (f (nth_draw gauss (init_by_seed seed) (j * n + i))).
Proof.
  intros Hi. unfold getitem.
  now rewrite nth_error_map, block_nth_error.
Qed.

Lemma nth_map_block (f : T -> T) (seed : Z) (n j i : nat) (d : T) :
  (i < n)%nat ->
  nth i (map f (block init_by_seed gauss seed n j)) d
  = f (nth_draw gauss (init_by_seed seed) (j * n + i)).
Proof.
  intros Hi. apply nth_error_nth.
  now rewrite nth_error_map, block_nth_error.
Qed.

Lemma getitem_ranges_of (seed : Z) (n i : nat) :
  (i < n)%nat ->
  getitem (ranges_of init_by_seed gauss seed n) i
  = Ok (aeroforge_range_calc
          (sample_eta (nth_draw gauss (init_by_seed seed) (4 * n + i)))
          (sample_epack (nth_draw gauss (init_by_seed seed) (0 * n + i)))
          (m_batt_kg params_nom) (m_total_kg params_nom) (g params_nom)
          (sample_l_over_d (nth_draw gauss (init_by_seed seed) (1 * n + i)))
          (sfc_eq params_nom)
          (sample_harvest (nth_draw gauss (init_by_seed seed) (2 * n + i)))
          (sample_sic_gain (nth_draw gauss (init_by_seed seed) (3 * n + i)))
          cruise_hours_default).
Proof.
  intros Hi. unfold getitem, ranges_of.
  rewrite nth_error_map, nth_error_seq.
  apply Nat.ltb_lt in Hi. rewrite Hi. apply Nat.ltb_lt in Hi.
  simpl option_map. unfold range_at.
  now rewrite !nth_map_block by assumption.
Qed.

End SamplesByIndex.

(** C7.  A run with a seed numpy accepts and a trial count that is not
    negative returns, and in trial [i] each sampled field is the floor or
    clip of [nominal * (1 + relative_std * z)], where [z] is the draw the
    field consumed for that trial (the fields draw [n_runs] numbers each, one
    field after the other) and the relative standard deviations are 0.25,
    0.15, 0.4, 0.2 and 0.1; battery mass, total mass, gravity and specific
    consumption reach the range model at their nominal values. *)
Theorem samples_are_floored_perturbations
    (T : Type) (S : Scalar T) (rng_state : Type)
    (init_by_seed : Z -> rng_state) (gauss : rng_state -> T * rng_state)
    (n_runs seed : Z) (s0 : rng_state) :
  (0 <= n_runs)%Z -> (0 <= seed < 2 ^ 32)%Z ->
  exists samples ranges_km s',
    run_aeroforge_montecarlo init_by_seed gauss n_runs seed s0
    = (Ok (samples, ranges_km, params_nom), s')
    /\ forall i : nat, (i < Z.to_nat n_runs)%nat ->
       let n := Z.to_nat n_runs in
       let z := nth_draw gauss (init_by_seed seed) in
       let epack :=
         np_maximum (of_int 200)
           (of_int 450 * (of_int 1 + lit 25 2 * z i))%num in
       let ld :=
         np_maximum (of_int 15)
           (of_int 22 * (of_int 1 + lit 15 2 * z (n + i)%nat))%num in
       let harvest :=
         np_maximum (of_int 0)
           (of_int 15 * (of_int 1 + lit 4 1 * z (2 * n + i)%nat))%num in
       let sic_gain :=
         np_maximum (of_int 1)
           (lit 108 2 * (of_int 1 + lit 2 1 * z (3 * n + i)%nat))%num in
       let eta :=
         np_minimum (lit 98 2)
           (np_maximum
              (lit 92 2 * (of_int 1 + lit 1 1 * z (4 * n + i)%nat))%num
              (lit 7 1)) in
       sample_at samples "epack" i = Ok epack
       /\ sample_at samples "l_over_d" i = Ok ld
       /\ sample_at samples "harvest" i = Ok harvest
       /\ sample_at samples "sic_gain" i = Ok sic_gain
       /\ sample_at samples "eta" i = Ok eta
       /\ getitem ranges_km i
          = Ok (aeroforge_range_calc eta epack (of_int 25000) (of_int 80000)
                  (lit 980665 5) ld (lit 15 5) harvest sic_gain (of_int 6)).
Proof.
  intros Hn Hseed.
  rewrite (run_ok rng_state init_by_seed gauss n_runs seed s0 Hn Hseed).
  do 3 eexists. split; [ reflexivity | ].
  intros i Hi n z epack ld harvest sic_gain eta.
  unfold sample_at, samples_of, dict_getitem. simpl dict_get.
  cbn [bind_result].
  rewrite !getitem_map_block by assumption.
  rewrite getitem_ranges_of by assumption.
  change (0 * Z.to_nat n_runs + i)%nat with i.
  replace (1 * Z.to_nat n_runs + i)%nat with (n + i)%nat by (subst n; lia).
  repeat split.
Qed.

(** Two trials from seed 7 on the two-state generator. *)
Lemma samples_are_floored_perturbations_witness :
  exists samples ranges_km s',
    run_aeroforge_montecarlo toy_seed toy_gauss 2 7 false
    = (Ok (samples, ranges_km, params_nom), s')
    /\ forall i : nat, (i < Z.to_nat 2)%nat ->
       let n := Z.to_nat 2 in
       let z := nth_draw toy_gauss (toy_seed 7) in
       let epack :=
         np_maximum (of_int 200)
           (of_int 450 * (of_int 1 + lit 25 2 * z i))%num in
       let ld :=
         np_maximum (of_int 15)
           (of_int 22 * (of_int 1 + lit 15 2 * z (n + i)%nat))%num in
       let harvest :=
         np_maximum (of_int 0)
           (of_int 15 * (of_int 1 + lit 4 1 * z (2 * n + i)%nat))%num in
       let sic_gain :=
         np_maximum (of_int 1)
           (lit 108 2 * (of_int 1 + lit 2 1 * z (3 * n + i)%nat))%num in
       let eta :=
         np_minimum (lit 98 2)
           (np_maximum
              (lit 92 2 * (of_int 1 + lit 1 1 * z (4 * n + i)%nat))%num
              (lit 7 1)) in
       sample_at samples "epack" i = Ok epack
       /\ sample_at samples "l_over_d" i = Ok ld
       /\ sample_at samples "harvest" i = Ok harvest
       /\ sample_at samples "sic_gain" i = Ok sic_gain
       /\ sample_at samples "eta" i = Ok eta
       /\ getitem ranges_km i
          = Ok (aeroforge_range_calc eta epack (of_int 25000) (of_int 80000)
                  (lit 980665 5) ld (lit 15 5) harvest sic_gain (of_int 6)).
Proof.
  apply (samples_are_floored_perturbations float _ bool toy_seed toy_gauss
           2 7 false); lia.
Defined.

(** C9.  What a run returns or raises is a function of [(n_runs, seed)]
    alone: the state the process-wide generator was left in by earlier code
    has no influence, so two runs with the same arguments return equal
    sample arrays and equal result arrays (at binary64, the same bits). *)
Theorem run_is_reproducible
    (T : Type) (S : Scalar T) (rng_state : Type)
    (init_by_seed : Z -> rng_state) (gauss : rng_state -> T * rng_state)
    (n_runs seed : Z) (s1 s2 : rng_state) :
  fst (run_aeroforge_montecarlo init_by_seed gauss n_runs seed s1)
  = fst (run_aeroforge_montecarlo init_by_seed gauss n_runs seed s2).
Proof.
  unfold run_aeroforge_montecarlo, bind at 1 7, np_random_seed.
  destruct ((0 <=? seed)%Z && (seed <? 2 ^ 32)%Z); reflexivity.
Qed.

(** A negative trial count is refused by [randn], before any draw. *)
Lemma negative_trials_raise
    (T : Type) (S : Scalar T) (rng_state : Type)
    (init_by_seed : Z -> rng_state) (gauss : rng_state -> T * rng_state)
    (n_runs seed : Z) (s0 : rng_state) :
  (n_runs < 0)%Z -> (0 <= seed < 2 ^ 32)%Z ->
  run_aeroforge_montecarlo init_by_seed gauss n_runs seed s0
  = (Raise ValueError, init_by_seed seed).
Proof.
  intros Hn Hseed. unfold run_aeroforge_montecarlo.
  rewrite (bind_ok _ _ _ _ _ _ (seed_ok _ init_by_seed seed s0 Hseed)).
  apply bind_raise. now apply randn_refused.
Qed.

(** A stand-in for numpy's percentile: like numpy's it refuses an empty
    array with [IndexError]; of any other array it gives the first entry. *)
Definition percentile_refusing_empty (a : list float) (q : Z) : result float :=
  match a with
  | [] => Raise IndexError
  | v :: _ => Ok v
  end.

(** C4, as the code has it.  With [n_runs = 0] (and a seed numpy accepts)
    the driver raises nothing: it returns five empty sample arrays and an
    empty result array.  Given the empty result array, [analyze_results]
    returns no statistics: it raises what [np.percentile] raises on an empty
    array at line 111 ([IndexError] in numpy), whatever the sample
    dictionary, before the achievement rates and the correlations are
    reached. *)
Theorem zero_trials_return_empty_arrays
    (T : Type) (S : Scalar T) (rng_state : Type)
    (init_by_seed : Z -> rng_state) (gauss : rng_state -> T * rng_state)
    (np_median : list T -> T) (np_percentile : list T -> Z -> result T)
    (seed : Z) (s0 : rng_state) (e : exn) :
  (0 <= seed < 2 ^ 32)%Z ->
  np_percentile [] 5%Z = Raise e ->
  run_aeroforge_montecarlo init_by_seed gauss 0 seed s0
  = (Ok ([("epack", []); ("l_over_d", []); ("harvest", []);
          ("sic_gain", []); ("eta", [])], [], params_nom),
     init_by_seed seed)
  /\ forall samples : dict (list T),
       analyze_results np_median np_percentile samples [] = Raise e.
Proof.
  intros Hseed Hperc. split.
  - rewrite (run_ok rng_state init_by_seed gauss 0 seed s0 (Z.le_refl 0) Hseed).
    reflexivity.
  - intros samples. unfold analyze_results. rewrite Hperc. reflexivity.
Qed.

(** Seed 42 on the two-state generator, with the stand-in percentile and a
    median that is NaN. *)
Lemma zero_trials_return_empty_arrays_witness :
  run_aeroforge_montecarlo toy_seed toy_gauss 0 42 false
  = (Ok ([("epack", []); ("l_over_d", []); ("harvest", []);
          ("sic_gain", []); ("eta", [])], [], params_nom),
     toy_seed 42)
  /\ forall samples : dict (list float),
       analyze_results (fun _ => PrimFloat.nan) percentile_refusing_empty
         samples []
       = Raise IndexError.
Proof.
  apply (zero_trials_return_empty_arrays float _ bool toy_seed toy_gauss
           (fun _ => PrimFloat.nan) percentile_refusing_empty 42 false
           IndexError).
  - lia.
  - reflexivity.
Defined.

(** C4, refuted as stated: a run with [n_runs = 0] returns, and what it
    returns is the empty arrays; [analyze_results] on those raises, but what
    it raises is the [IndexError] of the percentile. *)
Lemma zero_trials_do_not_raise :
  fst (run_aeroforge_montecarlo toy_seed toy_gauss 0 42 false)
  = Ok ([("epack", []); ("l_over_d", []); ("harvest", []);
         ("sic_gain", []); ("eta", [])], [], params_nom)
  /\ (forall e : exn,
        fst (run_aeroforge_montecarlo toy_seed toy_gauss 0 42 false)
        <> Raise e)
  /\ analyze_results (fun _ => PrimFloat.nan) percentile_refusing_empty
       [("epack", []); ("l_over_d", []); ("harvest", []);
        ("sic_gain", []); ("eta", [])] []
     = Raise IndexError.
Proof.
  split; [ reflexivity | split; [ intros e; discriminate | reflexivity ] ].
Qed.

(** ** Statistics *)

(** *** Zeros and NaN at binary64 *)

Module ZeroNan.

(** A zero of either sign, or NaN. *)
Definition zero_or_nan (f : float) : Prop :=
  match Prim2SF f with
  | S754_zero _ | S754_nan => True
  | _ => False
  end.

Lemma nan_zn : zero_or_nan PrimFloat.nan.
Proof. exact I. Qed.

Lemma zero_zn : zero_or_nan (of_int 0).
Proof. exact I. Qed.

Lemma sub_self (x : float) : zero_or_nan (PrimFloat.sub x x).
Proof.
  unfold zero_or_nan. rewrite sub_spec. unfold SF64sub.
  destruct (Prim2SF x) as [s | s | | s m e]; simpl.
  - now destruct s.
  - now destruct s.
  - exact I.
  - now rewrite Z.sub_diag.
Qed.

Lemma mul_l (x y : float) : zero_or_nan x -> zero_or_nan (PrimFloat.mul x y).
Proof.
  unfold zero_or_nan. rewrite mul_spec. unfold SF64mul.
  destruct (Prim2SF x) as [s | s | | s m e]; try contradiction; intros _.
  - now destruct (Prim2SF y).
  - exact I.
Qed.

Lemma add_zn (x y : float) :
  zero_or_nan x -> zero_or_nan y -> zero_or_nan (PrimFloat.add x y).
Proof.
  unfold zero_or_nan. rewrite add_spec. unfold SF64add.
  destruct (Prim2SF x) as [sx | sx | | sx mx ex]; try contradiction; intros _;
    destruct (Prim2SF y) as [sy | sy | | sy my ey]; try contradiction; intros _;
    try exact I.
  simpl. now destruct sx, sy.
Qed.

Lemma sqrt_zn (x : float) : zero_or_nan x -> zero_or_nan (PrimFloat.sqrt x).
Proof.
  unfold zero_or_nan. rewrite sqrt_spec. unfold SF64sqrt.
  now destruct (Prim2SF x) as [s | s | | s m e].
Qed.

Lemma div_zn (x y : float) :
  zero_or_nan x -> zero_or_nan y -> PrimFloat.div x y = PrimFloat.nan.
Proof.
  unfold zero_or_nan. intros Hx Hy. apply Prim2SF_inj.
  rewrite div_spec. unfold SF64div.
  destruct (Prim2SF x) as [sx | sx | | sx mx ex]; try contradiction;
    destruct (Prim2SF y) as [sy | sy | | sy my ey]; try contradiction;
    reflexivity.
Qed.

Lemma div_nan_l (y : float) : PrimFloat.div PrimFloat.nan y = PrimFloat.nan.
Proof.
  apply Prim2SF_inj. rewrite div_spec. unfold SF64div.
  change (Prim2SF PrimFloat.nan) with S754_nan. reflexivity.
Qed.

Lemma dot_zn (a b : list float) (acc : float) :
  Forall zero_or_nan a -> zero_or_nan acc -> zero_or_nan (dot a b acc).
Proof.
  intros Ha. revert b acc.
  induction Ha as [ | x a Hx Ha IH]; intros b acc Hacc; [ now destruct b | ].
  destruct b as [ | y b]; simpl; [ assumption | ].
  apply IH. apply add_zn; [ assumption | ]. now apply mul_l.
Qed.

End ZeroNan.

(** *** Correlation of a constant field *)

Lemma len_eqb_refl {T} (x y : list T) :
  List.length x = List.length y -> (len x =? len y)%Z = true.
Proof. intros Hl. unfold len. rewrite Hl. apply Z.eqb_refl. Qed.

(** When every entry of [x] equals the mean numpy computes for it, every
    deviation is [0.0] (or NaN), the covariance row is zero or NaN, and the
    coefficient is [0.0 / 0.0]. *)
Lemma corrcoef_zero_variance (x y : list float) :
  List.length x = List.length y ->
  Forall (fun v => v = np_mean x) x ->
  np_corrcoef_01 x y = Ok PrimFloat.nan.
Proof.
  intros Hl Hx. unfold np_corrcoef_01.
  rewrite (len_eqb_refl x y Hl). cbn [negb]. cbv zeta.
  set (fact := if (len x - 1 <=? 0)%Z then of_int 0 else of_int (len x - 1)).
  set (X0 := map (fun v => (v - np_mean x)%num) x).
  set (X1 := map (fun v => (v - np_mean y)%num) y).
  assert (HX0 : Forall ZeroNan.zero_or_nan X0).
  { subst X0. apply Forall_forall. intros d Hd.
    apply in_map_iff in Hd. destruct Hd as [v [<- Hv]].
    rewrite Forall_forall in Hx. rewrite (Hx v Hv) at 1.
    apply ZeroNan.sub_self. }
  assert (H01 : ZeroNan.zero_or_nan (dot X0 X1 (of_int 0) * (of_int 1 / fact))%num).
  { apply ZeroNan.mul_l, ZeroNan.dot_zn; [ exact HX0 | exact ZeroNan.zero_zn ]. }
  assert (H00 : ZeroNan.zero_or_nan
                  (sqrt (dot X0 X0 (of_int 0) * (of_int 1 / fact))%num)).
  { apply ZeroNan.sqrt_zn, ZeroNan.mul_l, ZeroNan.dot_zn;
      [ exact HX0 | exact ZeroNan.zero_zn ]. }
  cbn [div Scalar_float] in *.
  rewrite (ZeroNan.div_zn _ _ H01 H00), ZeroNan.div_nan_l.
  reflexivity.
Qed.

(** The five coefficients, when every field is there and as long as the
    result array. *)
Lemma correlation_analysis_ok {T} `{Scalar T}
    (samples : dict (list T)) (ranges_km epack ld harvest sic_gain eta : list T) :
  dict_get samples "epack" = Some epack ->
  dict_get samples "l_over_d" = Some ld ->
  dict_get samples "harvest" = Some harvest ->
  dict_get samples "sic_gain" = Some sic_gain ->
  dict_get samples "eta" = Some eta ->
  forall c1 c2 c3 c4 c5 : T,
  np_corrcoef_01 epack ranges_km = Ok c1 ->
  np_corrcoef_01 ld ranges_km = Ok c2 ->
  np_corrcoef_01 harvest ranges_km = Ok c3 ->
  np_corrcoef_01 sic_gain ranges_km = Ok c4 ->
  np_corrcoef_01 eta ranges_km = Ok c5 ->
  correlation_analysis samples ranges_km
  = Ok [("epack", c1); ("l_over_d", c2); ("harvest", c3);
        ("sic_gain", c4); ("eta", c5)].
Proof.
  intros G1 G2 G3 G4 G5 c1 c2 c3 c4 c5 E1 E2 E3 E4 E5.
  unfold correlation_analysis, correlation_loop, dict_getitem.
  rewrite G1, G2, G3, G4, G5. cbn [bind_result].
  rewrite E1, E2, E3, E4, E5. reflexivity.
Qed.

Lemma corrcoef_returns {T} `{Scalar T} (x y : list T) :
  List.length x = List.length y -> exists c, np_corrcoef_01 x y = Ok c.
Proof.
  intros Hl. unfold np_corrcoef_01. rewrite (len_eqb_refl x y Hl).
  eexists. reflexivity.
Qed.

(** C8, as the code has it.  When a stochastic field's sample vector is
    constant, every entry being the mean numpy computes for it, the
    correlation analysis raises nothing: the coefficient it stores for that
    field is NaN, the quotient [0.0 / 0.0]. *)
Theorem constant_field_correlation_is_nan
    (samples : dict (list float)) (ranges_km : list float)
    (key : string) (a : list float) :
  In key ["epack"; "l_over_d"; "harvest"; "sic_gain"; "eta"] ->
  (forall k, In k ["epack"; "l_over_d"; "harvest"; "sic_gain"; "eta"] ->
     exists b, dict_get samples k = Some b
               /\ List.length b = List.length ranges_km) ->
  dict_get samples key = Some a ->
  Forall (fun v => v = np_mean a) a ->
  exists correlations,
    correlation_analysis samples ranges_km = Ok correlations
    /\ dict_get correlations key = Some PrimFloat.nan.
Proof.
  intros Hkey Hall Ha Hconst.
  destruct (Hall "epack") as [b1 [G1 L1]]; [ simpl; tauto | ].
  destruct (Hall "l_over_d") as [b2 [G2 L2]]; [ simpl; tauto | ].
  destruct (Hall "harvest") as [b3 [G3 L3]]; [ simpl; tauto | ].
  destruct (Hall "sic_gain") as [b4 [G4 L4]]; [ simpl; tauto | ].
  destruct (Hall "eta") as [b5 [G5 L5]]; [ simpl; tauto | ].
  destruct (corrcoef_returns b1 ranges_km L1) as [c1 E1].
  destruct (corrcoef_returns b2 ranges_km L2) as [c2 E2].
  destruct (corrcoef_returns b3 ranges_km L3) as [c3 E3].
  destruct (corrcoef_returns b4 ranges_km L4) as [c4 E4].
  destruct (corrcoef_returns b5 ranges_km L5) as [c5 E5].
  eexists. split.
  - exact (correlation_analysis_ok samples ranges_km b1 b2 b3 b4 b5
             G1 G2 G3 G4 G5 c1 c2 c3 c4 c5 E1 E2 E3 E4 E5).
  - simpl in Hkey.
    destruct Hkey as [<- | [<- | [<- | [<- | [<- | []]]]]]; simpl;
      f_equal;
      match goal with
      | G : dict_get samples ?k = Some ?b, E : np_corrcoef_01 ?b _ = Ok ?c
        |- ?c = _ =>
          rewrite G in Ha; injection Ha as <-;
          rewrite corrcoef_zero_variance in E by assumption;
          now injection E
      end.
Qed.

(** The batch the remaining examples use: every pack-energy draw fell to
    the floor of 200. *)
Definition floored_batch : dict (list float) :=
  [("epack", [of_int 200; of_int 200; of_int 200]);
   ("l_over_d", [of_int 15; of_int 20; of_int 25]);
   ("harvest", [of_int 0; of_int 10; of_int 20]);
   ("sic_gain", [of_int 1; lit 15 1; of_int 2]);
   ("eta", [lit 7 1; lit 8 1; lit 98 2])].

Definition floored_ranges : list float := [of_int 1; of_int 2; of_int 4].

(** The 2000 trials of [main], had every pack-energy draw fallen to the
    floor: the other arrays count up from 1. *)
Definition counting (n : nat) : list float :=
  map (fun i => of_int (Z.of_nat i)) (seq 1 n).

Definition floored_run : dict (list float) :=
  [("epack", repeat (of_int 200) 2000);
   ("l_over_d", counting 2000);
   ("harvest", counting 2000);
   ("sic_gain", counting 2000);
   ("eta", counting 2000)].

(** Whether a constant array equals its mean is decided by the rounding of
    the pairwise sum: 2000 entries of 200 add up exactly; 36 entries of 0.98
    do not, and their mean is three units in the last place below 0.98
    (added left to right they would give 0.98 back). *)
Example constant_mean_exact :
  np_mean (repeat (of_int 200 : float) 2000) = of_int 200.
Proof. vm_compute. reflexivity. Qed.

Example constant_mean_rounded :
  np_mean (repeat (lit 98 2 : float) 36) = 0x1.f5c28f5c28f59p-1%float
  /\ (lit 98 2 : float) = 0x1.f5c28f5c28f5cp-1%float
  /\ (fold_left add (repeat (lit 98 2 : float) 36) (of_int 0) / of_int 36)%num
     = (lit 98 2 : float).
Proof. repeat split; vm_compute; reflexivity. Qed.

(** The floored run: [epack] is constant and its mean is exactly 200. *)
Lemma constant_field_correlation_is_nan_witness :
  exists correlations,
    correlation_analysis floored_run (counting 2000) = Ok correlations
    /\ dict_get correlations "epack" = Some PrimFloat.nan.
Proof.
  apply (constant_field_correlation_is_nan floored_run (counting 2000)
           "epack" (repeat (of_int 200) 2000)).
  - simpl. tauto.
  - intros k Hk. simpl in Hk.
    destruct Hk as [<- | [<- | [<- | [<- | [<- | []]]]]];
      eexists; (split; [ reflexivity | ]); vm_compute; reflexivity.
  - reflexivity.
  - apply Forall_forall. intros v Hv. apply repeat_spec in Hv.
    rewrite Hv. symmetry. exact constant_mean_exact.
Defined.

(** C8, refuted as stated: on a batch whose [epack] vector is constant the
    analysis returns, and the coefficient it stores for [epack] is NaN. *)
Lemma constant_field_does_not_raise :
  exists correlations,
    correlation_analysis floored_batch floored_ranges = Ok correlations
    /\ dict_get correlations "epack" = Some PrimFloat.nan
    /\ map fst correlations
       = ["epack"; "l_over_d"; "harvest"; "sic_gain"; "eta"].
Proof. vm_compute. eexists. repeat split. Qed.

(** *** The convention of the standard deviation *)

Section StdConvention.
Context {T : Type} `{Scalar T}.
Local Open Scope num_scope.

(** The population standard deviation, in words: the square root of the
    mean of the squared deviations from the mean, both means dividing by
    [n]. *)
Definition population_std (a : list T) : T :=
  let n := of_int (len a) in
  let mu := np_sum a / n in
  sqrt (np_sum (map (fun v => (v - mu) * (v - mu)) a) / n).

(** The sample standard deviation, which divides the squares by [n - 1]. *)
Definition sample_std (a : list T) : T :=
  let mu := np_sum a / of_int (len a) in
  sqrt (np_sum (map (fun v => (v - mu) * (v - mu)) a) / of_int (len a - 1)).

Lemma len_nonneg (a : list T) : (0 <= len a)%Z.
Proof. unfold len. lia. Qed.

Lemma np_std_population (a : list T) : np_std a = population_std a.
Proof.
  unfold np_std, np_var, population_std, np_mean.
  rewrite map_map, Z.sub_0_r, Z.max_l by apply len_nonneg.
  reflexivity.
Qed.

Lemma np_var_ddof1 (a : list T) :
  (1 <= len a)%Z -> sqrt (np_var 1 a) = sample_std a.
Proof.
  intros Hn. unfold np_var, sample_std, np_mean.
  rewrite map_map, Z.max_l by lia. reflexivity.
Qed.

Variable np_median : list T -> T.
Variable np_percentile : list T -> Z -> result T.

Lemma analyze_results_std (samples : dict (list T)) (ranges_km : list T)
    (st : Stats T) :
  analyze_results np_median np_percentile samples ranges_km = Ok st ->
  std st = np_std ranges_km.
Proof.
  unfold analyze_results.
  destruct (np_percentile ranges_km 5) as [p5 | e]; [ | discriminate ].
  destruct (np_percentile ranges_km 95) as [p95 | e]; [ | discriminate ].
  destruct (correlation_analysis samples ranges_km) as [c | e];
    [ | discriminate ].
  cbn [bind_result]. intros Hst. injection Hst as <-. reflexivity.
Qed.

End StdConvention.

(** Stand-ins for numpy's order statistics, to run [analyze_results] on:
    the [std] field does not depend on them. *)
Definition stub_median (a : list float) : float := nth 0 a PrimFloat.nan.

Definition stub_percentile (a : list float) (q : Z) : result float :=
  Ok (nth 0 a PrimFloat.nan).

(** C10.  Whatever [analyze_results] returns, its [std] field is the
    population standard deviation of the result array: the square root of
    the mean of the squared deviations from the mean, dividing by [n]; on
    the array [1, 3] that is 1, where dividing by [n - 1] gives the square
    root of 2. *)
Theorem std_is_population_std :
  (forall (T : Type) (S : Scalar T) (np_median : list T -> T)
          (np_percentile : list T -> Z -> result T)
          (samples : dict (list T)) (ranges_km : list T) (st : Stats T),
      analyze_results np_median np_percentile samples ranges_km = Ok st ->
      std st = population_std ranges_km)
  /\ @np_std float _ [of_int 1; of_int 3] = of_int 1
  /\ @sample_std float _ [of_int 1; of_int 3] = sqrt (of_int 2).
Proof.
  split; [ | split; vm_compute; reflexivity ].
  intros T S np_median np_percentile samples ranges_km st Hst.
  rewrite (analyze_results_std np_median np_percentile samples ranges_km st Hst).
  apply np_std_population.
Qed.

(** The floored batch, with the stand-in order statistics. *)
Lemma std_is_population_std_witness :
  exists st : Stats float,
    analyze_results stub_median stub_percentile floored_batch floored_ranges
    = Ok st
    /\ std st = population_std floored_ranges.
Proof.
  remember (analyze_results stub_median stub_percentile floored_batch
              floored_ranges) as r eqn:E.
  destruct r as [st | e].
  - exists st. split; [ reflexivity | ].
    exact (proj1 std_is_population_std float _ stub_median stub_percentile
             floored_batch floored_ranges st (eq_sym E)).
  - exfalso. vm_compute in E. discriminate E.
Defined.

(** * Further properties *)

(** ** The driver: what it returns, raises and consumes *)

Section DriverOutcome.
Context {T : Type} `{Scalar T}.
Variable rng_state : Type.
Variable init_by_seed : Z -> rng_state.
Variable gauss : rng_state -> T * rng_state.

Lemma samples_of_keys (seed : Z) (n : nat) :
  map fst (samples_of init_by_seed gauss seed n)
  = ["epack"; "l_over_d"; "harvest"; "sic_gain"; "eta"].
Proof. reflexivity. Qed.

Lemma samples_of_lengths (seed : Z) (n : nat) :
  Forall (fun kv => List.length (snd kv) = n)
    (samples_of init_by_seed gauss seed n).
Proof.
  unfold samples_of.
  repeat constructor; simpl; rewrite length_map; apply block_length.
Qed.

Lemma ranges_of_length (seed : Z) (n : nat) :
  List.length (ranges_of init_by_seed gauss seed n) = n.
Proof. unfold ranges_of. now rewrite length_map, length_seq. Qed.

(** The first [n] of [m] draws are the [n] draws. *)
Lemma draw_firstn (n m : nat) (s : rng_state) :
  (n <= m)%nat -> firstn n (fst (draw gauss m s)) = fst (draw gauss n s).
Proof.
  revert m s. induction n as [ | n IH]; intros m s Hnm; [ reflexivity | ].
  destruct m as [ | m]; [ lia | ].
  rewrite !draw_S. simpl. f_equal. apply IH. lia.
Qed.

End DriverOutcome.

(** X1.  A run with a seed numpy accepts and a trial count that is not
    negative returns a dictionary with exactly the keys [epack],
    [l_over_d], [harvest], [sic_gain] and [eta], in that order, and every
    array in it, like the result array, has [n_runs] entries: index [i]
    exists in all six arrays or in none. *)
Theorem run_arrays_are_aligned
    (T : Type) (S : Scalar T) (rng_state : Type)
    (init_by_seed : Z -> rng_state) (gauss : rng_state -> T * rng_state)
    (n_runs seed : Z) (s0 : rng_state) :
  (0 <= n_runs)%Z -> (0 <= seed < 2 ^ 32)%Z ->
  exists samples ranges_km s',
    run_aeroforge_montecarlo init_by_seed gauss n_runs seed s0
    = (Ok (samples, ranges_km, params_nom), s')
    /\ map fst samples = ["epack"; "l_over_d"; "harvest"; "sic_gain"; "eta"]
    /\ Forall (fun kv => len (snd kv) = n_runs) samples
    /\ len ranges_km = n_runs.
Proof.
  intros Hn Hseed.
  rewrite (run_ok rng_state init_by_seed gauss n_runs seed s0 Hn Hseed).
  do 3 eexists. split; [ reflexivity | ]. split; [ reflexivity | ]. split.
  - eapply Forall_impl; [ | apply samples_of_lengths ].
    intros kv Hkv. unfold len. rewrite Hkv. now apply Z2Nat.id.
  - unfold len. rewrite ranges_of_length. now apply Z2Nat.id.
Qed.

(** The 2000 trials of [main], on the two-state generator. *)
Lemma run_arrays_are_aligned_witness :
  exists samples ranges_km s',
    run_aeroforge_montecarlo toy_seed toy_gauss 2000 42 false
    = (Ok (samples, ranges_km, params_nom), s')
    /\ map fst samples = ["epack"; "l_over_d"; "harvest"; "sic_gain"; "eta"]
    /\ Forall (fun kv => len (snd kv) = 2000%Z) samples
    /\ len ranges_km = 2000%Z.
Proof.
  apply (run_arrays_are_aligned float _ bool toy_seed toy_gauss 2000 42 false);
    lia.
Defined.

(** X2.  The trial loop of lines 94-99 never fails: with five sample arrays
    of [n_runs] entries under the five keys and a result array of [n_runs]
    zeros, no lookup raises [KeyError] and no access raises [IndexError];
    the loop returns, and entry [i] of the result array is then
    [aeroforge_range_calc] on the [i]-th entries of the five arrays and the
    four fixed parameters, with the default [cruise_hours]. *)
Theorem trial_loop_never_fails
    (T : Type) (S : Scalar T) (p : Params T)
    (eta epack ld harvest sic_gain : list T) (n_runs : Z) :
  List.length eta = Z.to_nat n_runs ->
  List.length epack = Z.to_nat n_runs ->
  List.length ld = Z.to_nat n_runs ->
  List.length harvest = Z.to_nat n_runs ->
  List.length sic_gain = Z.to_nat n_runs ->
  for_each (seq 0 (Z.to_nat n_runs))
    (trial [("epack", epack); ("l_over_d", ld); ("harvest", harvest);
            ("sic_gain", sic_gain); ("eta", eta)] p)
    (np_zeros n_runs)
  = Ok (map (fun i =>
               aeroforge_range_calc
                 (nth i eta (of_int 0)) (nth i epack (of_int 0))
                 (m_batt_kg p) (m_total_kg p) (g p) (nth i ld (of_int 0))
                 (sfc_eq p) (nth i harvest (of_int 0))
                 (nth i sic_gain (of_int 0)) (of_int 6))
          (seq 0 (Z.to_nat n_runs))).
Proof.
  intros H1 H2 H3 H4 H5. unfold np_zeros.
  exact (for_each_trial p eta epack ld harvest sic_gain (Z.to_nat n_runs)
           H1 H2 H3 H4 H5).
Qed.

(** Three trials on the floored batch, at the nominal parameters. *)
Lemma trial_loop_never_fails_witness :
  for_each (seq 0 (Z.to_nat 3))
    (trial floored_batch params_nom) (np_zeros 3)
  = Ok (map (fun i =>
               aeroforge_range_calc
                 (nth i [lit 7 1; lit 8 1; lit 98 2] (of_int 0))
                 (nth i [of_int 200; of_int 200; of_int 200] (of_int 0))
                 (m_batt_kg params_nom) (m_total_kg params_nom)
                 (g params_nom)
                 (nth i [of_int 15; of_int 20; of_int 25] (of_int 0))
                 (sfc_eq params_nom)
                 (nth i [of_int 0; of_int 10; of_int 20] (of_int 0))
                 (nth i [of_int 1; lit 15 1; of_int 2] (of_int 0))
                 (of_int 6))
          (seq 0 (Z.to_nat 3))).
Proof.
  apply (trial_loop_never_fails float _ params_nom
           [lit 7 1; lit 8 1; lit 98 2]
           [of_int 200; of_int 200; of_int 200]
           [of_int 15; of_int 20; of_int 25]
           [of_int 0; of_int 10; of_int 20]
           [of_int 1; lit 15 1; of_int 2] 3); reflexivity.
Defined.

(** X3.  What a run does to the process-wide generator: a refused seed
    leaves it as it was; otherwise it is reseeded, and a run that returns
    has then consumed exactly [5 * n_runs] draws, while a negative trial
    count is refused before any draw. *)
Theorem run_generator_state
    (T : Type) (S : Scalar T) (rng_state : Type)
    (init_by_seed : Z -> rng_state) (gauss : rng_state -> T * rng_state)
    (n_runs seed : Z) (s0 : rng_state) :
  snd (run_aeroforge_montecarlo init_by_seed gauss n_runs seed s0)
  = if (0 <=? seed)%Z && (seed <? 2 ^ 32)%Z
    then if (n_runs <? 0)%Z then init_by_seed seed
         else state_after gauss (5 * Z.to_nat n_runs) (init_by_seed seed)
    else s0.
Proof.
  destruct ((0 <=? seed)%Z && (seed <? 2 ^ 32)%Z) eqn:Eseed.
  - apply andb_true_iff in Eseed. destruct Eseed as [Hlo Hhi].
    apply Z.leb_le in Hlo. apply Z.ltb_lt in Hhi.
    destruct (n_runs <? 0)%Z eqn:En.
    + apply Z.ltb_lt in En.
      now rewrite (negative_trials_raise T S rng_state init_by_seed gauss
                     n_runs seed s0 En (conj Hlo Hhi)).
    + apply Z.ltb_ge in En.
      now rewrite (run_ok rng_state init_by_seed gauss n_runs seed s0 En
                     (conj Hlo Hhi)).
  - unfold run_aeroforge_montecarlo.
    rewrite (bind_raise rng_state _ _ s0 s0 ValueError); [ reflexivity | ].
    apply seed_refused. intros [Hlo Hhi].
    apply Z.leb_le in Hlo. apply Z.ltb_lt in Hhi.
    rewrite Hlo, Hhi in Eseed. discriminate Eseed.
Qed.

(** X4.  Runs of different lengths from one seed share their pack-energy
    samples: the [epack] array of the shorter run is the beginning of the
    [epack] array of the longer one (the first field drawn after seeding). *)
Theorem epack_samples_nest
    (T : Type) (S : Scalar T) (rng_state : Type)
    (init_by_seed : Z -> rng_state) (gauss : rng_state -> T * rng_state)
    (n m seed : Z) (s0 s1 : rng_state) :
  (0 <= n <= m)%Z -> (0 <= seed < 2 ^ 32)%Z ->
  exists samples_n ranges_n samples_m ranges_m s0' s1' epack_n epack_m,
    run_aeroforge_montecarlo init_by_seed gauss n seed s0
    = (Ok (samples_n, ranges_n, params_nom), s0')
    /\ run_aeroforge_montecarlo init_by_seed gauss m seed s1
       = (Ok (samples_m, ranges_m, params_nom), s1')
    /\ dict_getitem samples_n "epack" = Ok epack_n
    /\ dict_getitem samples_m "epack" = Ok epack_m
    /\ epack_n = firstn (Z.to_nat n) epack_m.
Proof.
  intros [Hn Hnm] Hseed.
  rewrite (run_ok rng_state init_by_seed gauss n seed s0 Hn Hseed).
  rewrite (run_ok rng_state init_by_seed gauss m seed s1) by (assumption || lia).
  do 8 eexists.
  split; [ reflexivity | ]. split; [ reflexivity | ].
  split; [ reflexivity | ]. split; [ reflexivity | ].
  rewrite firstn_map. unfold block. simpl state_after.
  f_equal. symmetry. apply draw_firstn. lia.
Qed.

(** Two and three trials from seed 42 on the two-state generator. *)
Lemma epack_samples_nest_witness :
  exists samples_n ranges_n samples_m ranges_m s0' s1' epack_n epack_m,
    run_aeroforge_montecarlo toy_seed toy_gauss 2 42 false
    = (Ok (samples_n, ranges_n, params_nom), s0')
    /\ run_aeroforge_montecarlo toy_seed toy_gauss 3 42 true
       = (Ok (samples_m, ranges_m, params_nom), s1')
    /\ dict_getitem samples_n "epack" = Ok epack_n
    /\ dict_getitem samples_m "epack" = Ok epack_m
    /\ epack_n = firstn (Z.to_nat 2) epack_m.
Proof.
  apply (epack_samples_nest float _ bool toy_seed toy_gauss 2 3 42 false true);
    lia.
Defined.

(** ** The correlation loop: when it returns and what it raises *)

Definition stochastic_fields : list string :=
  ["epack"; "l_over_d"; "harvest"; "sic_gain"; "eta"].

(** The dictionary has an array under [k], as long as the result array. *)
Definition has_field {T} (samples : dict (list T)) (ranges_km : list T)
    (k : string) : Prop :=
  exists a, dict_get samples k = Some a
            /\ List.length a = List.length ranges_km.

Section CorrelationLoop.
Context {T : Type} `{Scalar T}.
Variables (samples : dict (list T)) (ranges_km : list T).

Lemma corrcoef_mismatch (x y : list T) :
  List.length x <> List.length y -> np_corrcoef_01 x y = Raise ValueError.
Proof.
  intros Hl. unfold np_corrcoef_01.
  destruct (len x =? len y)%Z eqn:E; [ | reflexivity ].
  apply Z.eqb_eq in E. unfold len in E. lia.
Qed.

Lemma corrcoef_ok_length (x y : list T) (c : T) :
  np_corrcoef_01 x y = Ok c -> List.length x = List.length y.
Proof.
  intros Hc. destruct (Nat.eq_dec (List.length x) (List.length y)) as [E | E];
    [ assumption | ].
  rewrite (corrcoef_mismatch x y E) in Hc. discriminate Hc.
Qed.

Lemma loop_step_ok (k : string) (rest : list string) (acc : dict T)
    (a : list T) (c : T) :
  dict_get samples k = Some a -> np_corrcoef_01 a ranges_km = Ok c ->
  correlation_loop samples ranges_km (k :: rest) acc
  = correlation_loop samples ranges_km rest (dict_set acc k c).
Proof.
  intros Ha Hc. cbn [correlation_loop]. unfold dict_getitem.
  rewrite Ha. cbn [bind_result]. now rewrite Hc.
Qed.

Lemma loop_returns_iff (params : list string) (acc : dict T) :
  (exists c, correlation_loop samples ranges_km params acc = Ok c)
  <-> Forall (has_field samples ranges_km) params.
Proof.
  revert acc. induction params as [ | k rest IH]; intros acc.
  - split; [ constructor | intros _; now exists acc ].
  - split.
    + intros [c Hc]. cbn [correlation_loop] in Hc. unfold dict_getitem in Hc.
      destruct (dict_get samples k) as [a | ] eqn:Ea; [ | discriminate Hc ].
      cbn [bind_result] in Hc.
      destruct (np_corrcoef_01 a ranges_km) as [v | e] eqn:Ev;
        [ | discriminate Hc ].
      cbn [bind_result] in Hc. constructor.
      * exists a. split; [ exact Ea | ]. now apply corrcoef_ok_length in Ev.
      * apply (IH (dict_set acc k v)). now exists c.
    + intros Hall. inversion Hall as [ | k' rest' [a [Ea La]] Hrest]; subst.
      destruct (corrcoef_returns a ranges_km La) as [v Ev].
      rewrite (loop_step_ok k rest acc a v Ea Ev). now apply IH.
Qed.

Lemma loop_first_failure (pre post : list string) (k : string) (acc : dict T) :
  Forall (has_field samples ranges_km) pre ->
  (dict_get samples k = None ->
   correlation_loop samples ranges_km (pre ++ k :: post) acc = Raise KeyError)
  /\ (forall a, dict_get samples k = Some a ->
        List.length a <> List.length ranges_km ->
        correlation_loop samples ranges_km (pre ++ k :: post) acc
        = Raise ValueError).
Proof.
  intros Hpre. revert acc.
  induction Hpre as [ | k' pre [a' [Ea' La']] Hpre IH]; intros acc.
  - simpl app. cbn [correlation_loop]. unfold dict_getitem. split.
    + intros ->. reflexivity.
    + intros a -> Hl. cbn [bind_result].
      now rewrite (corrcoef_mismatch a ranges_km Hl).
  - destruct (corrcoef_returns a' ranges_km La') as [v Ev].
    simpl app. rewrite (loop_step_ok k' _ acc a' v Ea' Ev). apply IH.
Qed.

End CorrelationLoop.

(** X5.  The correlation analysis returns exactly when the sample
    dictionary has every one of the five stochastic fields, each with an
    array as long as the result array; the dictionary it returns then has
    those five keys, in the order of the loop. *)
Theorem correlation_analysis_returns_iff
    (T : Type) (S : Scalar T) (samples : dict (list T)) (ranges_km : list T) :
  ((exists c, correlation_analysis samples ranges_km = Ok c)
   <-> forall k, In k stochastic_fields -> has_field samples ranges_km k)
  /\ (forall c, correlation_analysis samples ranges_km = Ok c ->
        map fst c = stochastic_fields).
Proof.
  split.
  - unfold correlation_analysis. rewrite loop_returns_iff.
    apply Forall_forall.
  - intros c Hc.
    assert (Hall : Forall (has_field samples ranges_km) stochastic_fields).
    { apply (loop_returns_iff samples ranges_km stochastic_fields []).
      now exists c. }
    unfold stochastic_fields in Hall.
    inversion Hall as [ | ? ? [b1 [G1 L1]] Hall1]; subst.
    inversion Hall1 as [ | ? ? [b2 [G2 L2]] Hall2]; subst.
    inversion Hall2 as [ | ? ? [b3 [G3 L3]] Hall3]; subst.
    inversion Hall3 as [ | ? ? [b4 [G4 L4]] Hall4]; subst.
    inversion Hall4 as [ | ? ? [b5 [G5 L5]] _]; subst.
    destruct (corrcoef_returns b1 ranges_km L1) as [c1 E1].
    destruct (corrcoef_returns b2 ranges_km L2) as [c2 E2].
    destruct (corrcoef_returns b3 ranges_km L3) as [c3 E3].
    destruct (corrcoef_returns b4 ranges_km L4) as [c4 E4].
    destruct (corrcoef_returns b5 ranges_km L5) as [c5 E5].
    rewrite (correlation_analysis_ok samples ranges_km b1 b2 b3 b4 b5
               G1 G2 G3 G4 G5 c1 c2 c3 c4 c5 E1 E2 E3 E4 E5) in Hc.
    injection Hc as <-. reflexivity.
Qed.

(** X6.  When the analysis fails, the first field of the loop order that
    is missing or of the wrong length decides how: a missing key raises
    [KeyError], an array whose length differs from the result array's
    raises numpy's [ValueError]; later fields are not looked at. *)
Theorem correlation_analysis_first_failure
    (T : Type) (S : Scalar T) (samples : dict (list T)) (ranges_km : list T)
    (pre post : list string) (k : string) :
  pre ++ k :: post = stochastic_fields ->
  (forall k', In k' pre -> has_field samples ranges_km k') ->
  (dict_get samples k = None ->
   correlation_analysis samples ranges_km = Raise KeyError)
  /\ (forall a, dict_get samples k = Some a ->
        List.length a <> List.length ranges_km ->
        correlation_analysis samples ranges_km = Raise ValueError).
Proof.
  intros Hsplit Hpre. unfold correlation_analysis.
  fold stochastic_fields. rewrite <- Hsplit.
  apply loop_first_failure. now apply Forall_forall.
Qed.

(** A batch without [harvest], and one whose [sic_gain] is too short. *)
Definition batch_without_harvest : dict (list float) :=
  [("epack", [of_int 200; of_int 300; of_int 400]);
   ("l_over_d", [of_int 15; of_int 20; of_int 25]);
   ("sic_gain", [of_int 1; of_int 2]);
   ("eta", [lit 7 1; lit 8 1; lit 98 2])].

Lemma correlation_analysis_first_failure_witness :
  correlation_analysis batch_without_harvest floored_ranges = Raise KeyError.
Proof.
  apply (correlation_analysis_first_failure float _ batch_without_harvest
           floored_ranges ["epack"; "l_over_d"] ["sic_gain"; "eta"] "harvest").
  - reflexivity.
  - intros k' Hk. simpl in Hk. destruct Hk as [<- | [<- | []]];
      eexists; split; reflexivity.
  - reflexivity.
Defined.

Section RunThenAnalyze.
Context {T : Type} `{Scalar T}.
Variable np_median : list T -> T.
Variable np_percentile : list T -> Z -> result T.

(** [analyze_results], once the correlation analysis is known to return. *)
Lemma analyze_results_cases (samples : dict (list T)) (ranges_km : list T)
    (c : dict T) :
  correlation_analysis samples ranges_km = Ok c ->
  analyze_results np_median np_percentile samples ranges_km
  = match np_percentile ranges_km 5 with
    | Raise e => Raise e
    | Ok a =>
        match np_percentile ranges_km 95 with
        | Raise e => Raise e
        | Ok b =>
            Ok {| mean := np_mean ranges_km; std := np_std ranges_km;
                  median := np_median ranges_km; p5 := a; p95 := b;
                  target_5k := achievement ranges_km 5000;
                  target_10k := achievement ranges_km 10000;
                  correlations := c |}
        end
    end.
Proof.
  intros Hc. unfold analyze_results.
  destruct (np_percentile ranges_km 5) as [a | e]; [ | reflexivity ].
  destruct (np_percentile ranges_km 95) as [b | e]; [ | reflexivity ].
  cbn [bind_result]. now rewrite Hc.
Qed.

End RunThenAnalyze.

(** X7.  The statistics of a run's own output, as [main] computes them: the
    correlation analysis always returns (every field is there and aligned),
    so [analyze_results] can fail only where [np.percentile] does, with the
    exception it raises; when both percentile levels return, the summary is
    returned with five coefficients. *)
Theorem run_then_analyze
    (T : Type) (S : Scalar T) (rng_state : Type)
    (init_by_seed : Z -> rng_state) (gauss : rng_state -> T * rng_state)
    (np_median : list T -> T) (np_percentile : list T -> Z -> result T)
    (n_runs seed : Z) (s0 : rng_state) :
  (0 <= n_runs)%Z -> (0 <= seed < 2 ^ 32)%Z ->
  exists samples ranges_km s',
    run_aeroforge_montecarlo init_by_seed gauss n_runs seed s0
    = (Ok (samples, ranges_km, params_nom), s')
    /\ (exists c, correlation_analysis samples ranges_km = Ok c)
    /\ (forall e,
          analyze_results np_median np_percentile samples ranges_km = Raise e ->
          np_percentile ranges_km 5%Z = Raise e
          \/ np_percentile ranges_km 95%Z = Raise e)
    /\ (forall a b,
          np_percentile ranges_km 5%Z = Ok a ->
          np_percentile ranges_km 95%Z = Ok b ->
          exists st,
            analyze_results np_median np_percentile samples ranges_km = Ok st
            /\ p5 st = a /\ p95 st = b
            /\ map fst (correlations st) = stochastic_fields).
Proof.
  intros Hn Hseed.
  rewrite (run_ok rng_state init_by_seed gauss n_runs seed s0 Hn Hseed).
  do 3 eexists. split; [ reflexivity | ].
  set (n := Z.to_nat n_runs).
  assert (Hc : exists c,
             correlation_analysis (samples_of init_by_seed gauss seed n)
               (ranges_of init_by_seed gauss seed n) = Ok c).
  { unfold correlation_analysis.
    apply (proj2 (loop_returns_iff _ _ stochastic_fields [])).
    unfold stochastic_fields, samples_of.
    repeat constructor;
      (eexists; split; [ reflexivity | ];
       rewrite length_map, block_length, ranges_of_length; reflexivity). }
  destruct Hc as [c Hc]. split; [ now exists c | ].
  rewrite (analyze_results_cases np_median np_percentile _ _ c Hc).
  assert (Hkeys : map fst c = stochastic_fields).
  { revert Hc. unfold correlation_analysis, correlation_loop, samples_of,
      dict_getitem. simpl dict_get. cbn [bind_result].
    unfold np_corrcoef_01.
    rewrite !len_eqb_refl
      by (rewrite length_map, block_length, ranges_of_length; reflexivity).
    cbn [negb bind_result]. intros Hc. injection Hc as <-. reflexivity. }
  split.
  - intros e He.
    destruct (np_percentile _ 5%Z) as [a | e5];
      [ | injection He as <-; left; reflexivity ].
    destruct (np_percentile _ 95%Z) as [b | e95]; [ discriminate He | ].
    injection He as <-. right; reflexivity.
  - intros a b -> ->. eexists. split; [ reflexivity | ].
    repeat split. exact Hkeys.
Qed.

(** Three trials from seed 42 on the two-state generator, with the stand-in
    order statistics. *)
Lemma run_then_analyze_witness :
  exists samples ranges_km s',
    run_aeroforge_montecarlo toy_seed toy_gauss 3 42 false
    = (Ok (samples, ranges_km, params_nom), s')
    /\ (exists c, correlation_analysis samples ranges_km = Ok c)
    /\ (forall e,
          analyze_results stub_median stub_percentile samples ranges_km
          = Raise e ->
          stub_percentile ranges_km 5%Z = Raise e
          \/ stub_percentile ranges_km 95%Z = Raise e)
    /\ (forall a b,
          stub_percentile ranges_km 5%Z = Ok a ->
          stub_percentile ranges_km 95%Z = Ok b ->
          exists st,
            analyze_results stub_median stub_percentile samples ranges_km
            = Ok st
            /\ p5 st = a /\ p95 st = b
            /\ map fst (correlations st) = stochastic_fields).
Proof.
  apply (run_then_analyze float _ bool toy_seed toy_gauss stub_median
           stub_percentile 3 42 false); lia.
Defined.

(** ** Achievement rates, in exact arithmetic *)

Lemma filter_length_mono {A} (p q : A -> bool) (l : list A) :
  (forall v, p v = true -> q v = true) ->
  (List.length (filter p l) <= List.length (filter q l))%nat.
Proof.
  intros Hpq. induction l as [ | v l IH]; simpl; [ lia | ].
  destruct (p v) eqn:Ep.
  - rewrite (Hpq v Ep). simpl. lia.
  - destruct (q v); simpl; lia.
Qed.

Section Rates.
Local Open Scope R_scope.

Lemma geb_threshold_mono (t1 t2 : Z) (v : R) :
  (t1 <= t2)%Z -> Exact.geb v (IZR t2) = true -> Exact.geb v (IZR t1) = true.
Proof.
  intros Ht. unfold Exact.geb.
  destruct (Rle_dec (IZR t2) v) as [H2 | H2]; [ intros _ | discriminate ].
  apply IZR_le in Ht.
  destruct (Rle_dec (IZR t1) v) as [H1 | H1]; [ reflexivity | lra ].
Qed.

Lemma rate_le (c1 c2 n : Z) :
  (0 < n)%Z -> (c1 <= c2)%Z ->
  IZR c1 / IZR n * 100 <= IZR c2 / IZR n * 100.
Proof.
  intros Hn Hc. apply IZR_lt in Hn. apply IZR_le in Hc.
  apply Rmult_le_compat_r; [ lra | ].
  apply Rmult_le_compat_r; [ | exact Hc ].
  left. now apply Rinv_0_lt_compat.
Qed.

Lemma achievement_bounds (a : list R) (t1 t2 : Z) :
  a <> [] -> (t1 <= t2)%Z ->
  0 <= achievement a t2 <= achievement a t1 /\ achievement a t1 <= 100.
Proof.
  intros Ha Ht. unfold achievement. cbn [of_int div mul geb Scalar_R].
  assert (Hn : (0 < len a)%Z).
  { unfold len. destruct a; [ congruence | simpl; lia ]. }
  set (c1 := len (filter (fun v => Exact.geb v (IZR t1)) a)).
  set (c2 := len (filter (fun v => Exact.geb v (IZR t2)) a)).
  assert (H0 : (0 <= c2)%Z) by (unfold c2, len; lia).
  assert (H12 : (c2 <= c1)%Z).
  { unfold c1, c2, len. apply inj_le, filter_length_mono.
    intros v. now apply geb_threshold_mono. }
  assert (H1n : (c1 <= len a)%Z).
  { unfold c1, len. apply inj_le, filter_length_le. }
  pose proof (rate_le 0 c2 (len a) Hn H0) as B0.
  pose proof (rate_le c2 c1 (len a) Hn H12) as B1.
  pose proof (rate_le c1 (len a) (len a) Hn H1n) as B2.
  assert (Hfull : IZR (len a) / IZR (len a) * 100 = 100).
  { apply IZR_lt in Hn. field. lra. }
  assert (Hzero : IZR 0 / IZR (len a) * 100 = 0).
  { apply IZR_lt in Hn. field. lra. }
  rewrite Hfull in B2. rewrite Hzero in B0. lra.
Qed.

Variable np_median : list R -> R.
Variable np_percentile : list R -> Z -> result R.

Lemma analyze_results_targets (samples : dict (list R)) (ranges_km : list R)
    (st : Stats R) :
  analyze_results np_median np_percentile samples ranges_km = Ok st ->
  target_5k st = achievement ranges_km 5000
  /\ target_10k st = achievement ranges_km 10000.
Proof.
  unfold analyze_results.
  destruct (np_percentile ranges_km 5) as [a | e]; [ | discriminate ].
  destruct (np_percentile ranges_km 95) as [b | e]; [ | discriminate ].
  destruct (correlation_analysis samples ranges_km) as [c | e];
    [ | discriminate ].
  cbn [bind_result]. intros Hst. injection Hst as <-. split; reflexivity.
Qed.

End Rates.

(** X8.  In exact arithmetic, for a result array that is not empty, the
    two achievement rates of the summary are percentages and the rate at
    10000 km never exceeds the rate at 5000 km:
    [0 <= target_10k <= target_5k <= 100]. *)
Theorem achievement_rates_ordered
    (np_median : list R -> R) (np_percentile : list R -> Z -> result R)
    (samples : dict (list R)) (ranges_km : list R) (st : Stats R) :
  ranges_km <> [] ->
  analyze_results np_median np_percentile samples ranges_km = Ok st ->
  (0 <= target_10k st <= target_5k st /\ target_5k st <= 100)%R.
Proof.
  intros Hne Hst.
  destruct (analyze_results_targets np_median np_percentile samples ranges_km
              st Hst) as [-> ->].
  apply achievement_bounds; [ assumption | lia ].
Qed.

(** Three trials that reach 4000, 6000 and 12000 km. *)
Definition long_ranges : list R := [4000; 6000; 12000]%R.

Definition long_batch : dict (list R) :=
  [("epack", [400; 500; 600]%R); ("l_over_d", [20; 22; 24]%R);
   ("harvest", [10; 15; 20]%R); ("sic_gain", [1; 1; 2]%R);
   ("eta", [7/10; 8/10; 9/10]%R)].

Lemma achievement_rates_ordered_witness :
  exists st : Stats R,
    analyze_results (fun _ => 0%R) (fun _ _ => Ok 0%R) long_batch long_ranges
    = Ok st
    /\ (0 <= target_10k st <= target_5k st /\ target_5k st <= 100)%R.
Proof.
  eexists. split; [ reflexivity | ].
  apply (achievement_rates_ordered (fun _ => 0%R) (fun _ _ => Ok 0%R)
           long_batch long_ranges).
  - discriminate.
  - reflexivity.
Defined.

(** ** The sign of every input's effect, in exact arithmetic *)

Section Signs.
Local Open Scope R_scope.

Lemma flat_mono_num (N N' D : R) :
  0 < D -> N <= N' ->
  Rmax 0 (Rmin 50000 (N / D / 1000)) <= Rmax 0 (Rmin 50000 (N' / D / 1000)).
Proof.
  intros HD HN. apply Rle_max_compat_l, Rle_min_compat_l.
  apply Rmult_le_compat_r; [ lra | ].
  apply Rmult_le_compat_r; [ | exact HN ].
  left. now apply Rinv_0_lt_compat.
Qed.

Lemma flat_nonpositive (N D : R) :
  0 < D -> N <= 0 -> Rmax 0 (Rmin 50000 (N / D / 1000)) = 0.
Proof.
  intros HD HN.
  assert (Hq : N / D / 1000 <= 0).
  { apply Rinv_0_lt_compat in HD.
    assert (N * / D <= 0).
    { rewrite <- (Rmult_0_l (/ D)). apply Rmult_le_compat_r; lra. }
    unfold Rdiv. lra. }
  unfold Rmax, Rmin.
  destruct (Rle_dec 50000 _), (Rle_dec 0 _); lra.
Qed.

Lemma flat_antitone_den (N D D' : R) :
  0 < D -> D <= D' ->
  Rmax 0 (Rmin 50000 (N / D' / 1000)) <= Rmax 0 (Rmin 50000 (N / D / 1000)).
Proof.
  intros HD HDD. destruct (Rle_dec 0 N) as [HN | HN].
  - apply Rle_max_compat_l, Rle_min_compat_l.
    apply Rmult_le_compat_r; [ lra | ].
    apply Rmult_le_compat_l; [ exact HN | ].
    now apply Rinv_le_contravar.
  - rewrite !flat_nonpositive by lra. lra.
Qed.

End Signs.

(** X9.  In exact arithmetic and with positive denominator factors, the
    returned range does not decrease when one input of the numerator grows
    and the factors it is multiplied by are not negative: this holds for
    [eta_system], [sic_efficiency_gain], [m_batt_kg], [harvest_kw] and
    [cruise_hours]. *)
Theorem range_monotone_in_energy_inputs
    (eta eta' epack mb mb' mt gr ld sfc hv hv' sic sic' ch ch' : R) :
  (0 < gr)%R -> (0 < ld)%R -> (0 < sfc)%R -> (0 < mt)%R ->
  ((eta <= eta')%R -> (0 <= sic * (epack * mb + hv * 1000 * ch))%R ->
   (aeroforge_range_calc eta epack mb mt gr ld sfc hv sic ch
    <= aeroforge_range_calc eta' epack mb mt gr ld sfc hv sic ch)%R)
  /\ ((sic <= sic')%R -> (0 <= eta * (epack * mb + hv * 1000 * ch))%R ->
      (aeroforge_range_calc eta epack mb mt gr ld sfc hv sic ch
       <= aeroforge_range_calc eta epack mb mt gr ld sfc hv sic' ch)%R)
  /\ ((mb <= mb')%R -> (0 <= eta * sic * epack)%R ->
      (aeroforge_range_calc eta epack mb mt gr ld sfc hv sic ch
       <= aeroforge_range_calc eta epack mb' mt gr ld sfc hv sic ch)%R)
  /\ ((hv <= hv')%R -> (0 <= eta * sic * ch)%R ->
      (aeroforge_range_calc eta epack mb mt gr ld sfc hv sic ch
       <= aeroforge_range_calc eta epack mb mt gr ld sfc hv' sic ch)%R)
  /\ ((ch <= ch')%R -> (0 <= eta * sic * hv)%R ->
      (aeroforge_range_calc eta epack mb mt gr ld sfc hv sic ch
       <= aeroforge_range_calc eta epack mb mt gr ld sfc hv sic ch')%R).
Proof.
  intros Hg Hl Hs Hm.
  assert (HD : (0 < gr * ld * sfc * mt)%R)
    by (repeat apply Rmult_lt_0_compat; assumption).
  rewrite !range_calc_flat_R.
  repeat split; intros Hle Hpos; apply flat_mono_num; try exact HD.
  - assert (0 <= (eta' - eta) * (sic * (epack * mb + hv * 1000 * ch)))%R
      by (apply Rmult_le_pos; lra).
    lra.
  - assert (0 <= (sic' - sic) * (eta * (epack * mb + hv * 1000 * ch)))%R
      by (apply Rmult_le_pos; lra).
    lra.
  - assert (0 <= (mb' - mb) * (eta * sic * epack))%R
      by (apply Rmult_le_pos; lra).
    lra.
  - assert (0 <= (hv' - hv) * (eta * sic * ch))%R
      by (apply Rmult_le_pos; lra).
    lra.
  - assert (0 <= (ch' - ch) * (eta * sic * hv))%R
      by (apply Rmult_le_pos; lra).
    lra.
Qed.

(** At the nominal parameters, each of the five inputs raised in turn. *)
Lemma range_monotone_in_energy_inputs_witness :
  (aeroforge_range_calc (92/100) 450 25000 80000 (980665/100000) 22
     (15/100000) 15 (108/100) 6
   <= aeroforge_range_calc (95/100) 450 25000 80000 (980665/100000) 22
        (15/100000) 15 (108/100) 6)%R
  /\ (aeroforge_range_calc (92/100) 450 25000 80000 (980665/100000) 22
        (15/100000) 15 (108/100) 6
      <= aeroforge_range_calc (92/100) 450 25000 80000 (980665/100000) 22
           (15/100000) 20 (108/100) 6)%R.
Proof.
  assert (Hg : (0 < 980665/100000)%R) by lra.
  assert (Hl : (0 < 22)%R) by lra.
  assert (Hs : (0 < 15/100000)%R) by lra.
  assert (Hm : (0 < 80000)%R) by lra.
  destruct (range_monotone_in_energy_inputs
              (92/100) (95/100) 450 25000 25000 80000 (980665/100000) 22
              (15/100000) 15 20 (108/100) (108/100) 6 6 Hg Hl Hs Hm)
    as [Heta [_ [_ [Hhv _]]]].
  split; [ apply Heta | apply Hhv ]; lra.
Defined.

(** X10.  In exact arithmetic and with positive denominator factors, the
    returned range does not increase when [g], [sfc_eq] or [m_total_kg]
    grows, whatever the sign of the numerator: a negative quotient is
    returned as 0 either way. *)
Theorem range_antitone_in_denominator_inputs
    (eta epack mb mt mt' gr gr' ld sfc sfc' hv sic ch : R) :
  (0 < gr)%R -> (0 < ld)%R -> (0 < sfc)%R -> (0 < mt)%R ->
  ((gr <= gr')%R ->
   (aeroforge_range_calc eta epack mb mt gr' ld sfc hv sic ch
    <= aeroforge_range_calc eta epack mb mt gr ld sfc hv sic ch)%R)
  /\ ((sfc <= sfc')%R ->
      (aeroforge_range_calc eta epack mb mt gr ld sfc' hv sic ch
       <= aeroforge_range_calc eta epack mb mt gr ld sfc hv sic ch)%R)
  /\ ((mt <= mt')%R ->
      (aeroforge_range_calc eta epack mb mt' gr ld sfc hv sic ch
       <= aeroforge_range_calc eta epack mb mt gr ld sfc hv sic ch)%R).
Proof.
  intros Hg Hl Hs Hm.
  assert (HD : (0 < gr * ld * sfc * mt)%R)
    by (repeat apply Rmult_lt_0_compat; assumption).
  rewrite !range_calc_flat_R.
  repeat split; intros Hle; apply flat_antitone_den; try exact HD.
  - repeat apply Rmult_le_compat_r; lra.
  - apply Rmult_le_compat_r; [ lra | ].
    apply Rmult_le_compat_l; [ | exact Hle ].
    apply Rmult_le_pos; lra.
  - apply Rmult_le_compat_l; [ | exact Hle ].
    repeat apply Rmult_le_pos; lra.
Qed.

(** At the nominal parameters, a total mass of 90000 instead of 80000. *)
Lemma range_antitone_in_denominator_inputs_witness :
  (aeroforge_range_calc (92/100) 450 25000 90000 (980665/100000) 22
     (15/100000) 15 (108/100) 6
   <= aeroforge_range_calc (92/100) 450 25000 80000 (980665/100000) 22
        (15/100000) 15 (108/100) 6)%R.
Proof.
  assert (Hg : (0 < 980665/100000)%R) by lra.
  assert (Hl : (0 < 22)%R) by lra.
  assert (Hs : (0 < 15/100000)%R) by lra.
  assert (Hm : (0 < 80000)%R) by lra.
  destruct (range_antitone_in_denominator_inputs
              (92/100) 450 25000 80000 90000 (980665/100000) (980665/100000)
              22 (15/100000) (15/100000) 15 (108/100) 6 Hg Hl Hs Hm)
    as [_ [_ Hmt]].
  apply Hmt. lra.
Defined.

(** ** Where the floors and the clip bite, in exact arithmetic *)

Section Thresholds.
Local Open Scope R_scope.

Lemma sample_epack_R (z : R) :
  sample_epack z = Rmax 200 (450 * (1 + 25 / 100 * z)).
Proof.
  unfold sample_epack, perturb, lit. simpl.
  change (Z.pow_pos 10 2) with 100%Z. apply ExactFacts.maximum_Rmax.
Qed.

Lemma sample_l_over_d_R (z : R) :
  sample_l_over_d z = Rmax 15 (22 * (1 + 15 / 100 * z)).
Proof.
  unfold sample_l_over_d, perturb, lit. simpl.
  change (Z.pow_pos 10 2) with 100%Z. apply ExactFacts.maximum_Rmax.
Qed.

Lemma sample_harvest_R (z : R) :
  sample_harvest z = Rmax 0 (15 * (1 + 4 / 10 * z)).
Proof.
  unfold sample_harvest, perturb, lit. simpl.
  change (Z.pow_pos 10 1) with 10%Z. apply ExactFacts.maximum_Rmax.
Qed.

Lemma sample_sic_gain_R (z : R) :
  sample_sic_gain z = Rmax 1 (108 / 100 * (1 + 2 / 10 * z)).
Proof.
  unfold sample_sic_gain, perturb, lit. simpl.
  change (Z.pow_pos 10 2) with 100%Z. change (Z.pow_pos 10 1) with 10%Z.
  apply ExactFacts.maximum_Rmax.
Qed.

Lemma sample_eta_R (z : R) :
  sample_eta z = Rmin (98 / 100) (Rmax (92 / 100 * (1 + 1 / 10 * z)) (7 / 10)).
Proof.
  unfold sample_eta, np_clip, perturb, lit. simpl.
  change (Z.pow_pos 10 2) with 100%Z. change (Z.pow_pos 10 1) with 10%Z.
  now rewrite ExactFacts.minimum_Rmin, ExactFacts.maximum_Rmax.
Qed.

End Thresholds.

(** X11.  In exact arithmetic each sampling rule is piecewise linear in its
    draw [z]: the pack energy is 200 for [z <= -20/9] and [450 (1 + z/4)]
    above, the lift-to-drag ratio is 15 for [z <= -70/33], the harvested
    power is 0 for [z <= -5/2], the SiC gain is 1 for [z <= -10/27], and the
    system efficiency is 0.7 for [z <= -55/23], 0.98 for [z >= 15/23] and
    [0.92 (1 + z/10)] in between. *)
Theorem sampling_rules_piecewise (z : R) :
  (((z <= - (20 / 9))%R -> (@sample_epack R _ z = 200)%R)
   /\ ((- (20 / 9) <= z)%R -> (@sample_epack R _ z = 450 * (1 + z / 4))%R))
  /\ (((z <= - (70 / 33))%R -> (@sample_l_over_d R _ z = 15)%R)
      /\ ((- (70 / 33) <= z)%R ->
          (@sample_l_over_d R _ z = 22 * (1 + 15 / 100 * z))%R))
  /\ (((z <= - (5 / 2))%R -> (@sample_harvest R _ z = 0)%R)
      /\ ((- (5 / 2) <= z)%R ->
          (@sample_harvest R _ z = 15 * (1 + 4 / 10 * z))%R))
  /\ (((z <= - (10 / 27))%R -> (@sample_sic_gain R _ z = 1)%R)
      /\ ((- (10 / 27) <= z)%R ->
          (@sample_sic_gain R _ z = 108 / 100 * (1 + 2 / 10 * z))%R))
  /\ (((z <= - (55 / 23))%R -> (@sample_eta R _ z = 7 / 10)%R)
      /\ ((- (55 / 23) <= z <= 15 / 23)%R ->
          (@sample_eta R _ z = 92 / 100 * (1 + z / 10))%R)
      /\ ((15 / 23 <= z)%R -> (@sample_eta R _ z = 98 / 100)%R)).
Proof.
  rewrite sample_epack_R, sample_l_over_d_R, sample_harvest_R,
    sample_sic_gain_R, sample_eta_R.
  repeat split; intros Hz; unfold Rmax;
    repeat match goal with
           | |- context [Rle_dec ?a ?b] => destruct (Rle_dec a b)
           end;
    unfold Rmin;
    repeat match goal with
           | |- context [Rle_dec ?a ?b] => destruct (Rle_dec a b)
           end; lra.
Qed.

(** ** Coefficients are clipped *)

Lemma clip_nan (lo hi : float) :
  PrimFloat.is_nan hi = false ->
  np_clip PrimFloat.nan lo hi = PrimFloat.nan.
Proof.
  intros Hhi. unfold np_clip. cbn [np_maximum np_minimum Scalar_float].
  unfold F64.maximum at 1.
  replace (PrimFloat.is_nan PrimFloat.nan) with true by reflexivity.
  rewrite orb_true_r. unfold F64.minimum. rewrite Hhi, orb_false_r.
  replace (PrimFloat.leb hi PrimFloat.nan) with false; [ reflexivity | ].
  symmetry. rewrite leb_spec. unfold SFleb.
  change (Prim2SF PrimFloat.nan) with S754_nan.
  now destruct (Prim2SF hi).
Qed.

(** A coefficient is NaN or lies between -1 and 1. *)
Definition coefficient_ok (c : float) : Prop :=
  PrimFloat.is_nan c = true
  \/ (PrimFloat.leb (of_int (-1)) c = true /\ PrimFloat.leb c (of_int 1) = true).

Lemma corrcoef_is_clip {T} `{Scalar T} (x y : list T) (c : T) :
  np_corrcoef_01 x y = Ok c ->
  exists q, c = np_clip q (of_int (-1)) (of_int 1).
Proof.
  unfold np_corrcoef_01.
  destruct (negb (len x =? len y)%Z); [ discriminate | ].
  intros Hc. eexists. injection Hc as <-. reflexivity.
Qed.

Lemma corrcoef_clipped (x y : list float) (c : float) :
  np_corrcoef_01 x y = Ok c -> coefficient_ok c.
Proof.
  intros Hc. destruct (corrcoef_is_clip x y c Hc) as [q ->].
  destruct (PrimFloat.is_nan q) eqn:Eq.
  - apply F64Facts.is_nan_eq in Eq. rewrite Eq.
    left. rewrite clip_nan; reflexivity.
  - right. apply clip_bounds; [ exact Eq | vm_compute; reflexivity ].
Qed.

Lemma dict_set_Forall {V} (P : string * V -> Prop) (d : dict V) (k : string)
    (v : V) :
  (forall k', P (k', v)) -> Forall P d -> Forall P (dict_set d k v).
Proof.
  intros Hv Hd. induction Hd as [ | [k' v'] d Hkv Hd IH]; simpl.
  - constructor; [ apply Hv | constructor ].
  - destruct (String.eqb k k'); constructor; auto.
Qed.

Lemma correlation_loop_clipped (samples : dict (list float))
    (ranges_km : list float) (params : list string) (acc c : dict float) :
  Forall (fun kv => coefficient_ok (snd kv)) acc ->
  correlation_loop samples ranges_km params acc = Ok c ->
  Forall (fun kv => coefficient_ok (snd kv)) c.
Proof.
  revert acc. induction params as [ | k rest IH]; intros acc Hacc Hc.
  - simpl in Hc. now injection Hc as <-.
  - cbn [correlation_loop] in Hc. unfold dict_getitem in Hc.
    destruct (dict_get samples k) as [a | ]; [ | discriminate Hc ].
    cbn [bind_result] in Hc.
    destruct (np_corrcoef_01 a ranges_km) as [v | e] eqn:Ev;
      [ | discriminate Hc ].
    cbn [bind_result] in Hc. apply (IH (dict_set acc k v)); [ | exact Hc ].
    apply dict_set_Forall; [ | exact Hacc ].
    intros k'. simpl. now apply corrcoef_clipped in Ev.
Qed.

(** X12.  At binary64, every coefficient the correlation analysis returns
    is either NaN or lies in [-1, 1]. *)
Theorem correlations_are_clipped
    (samples : dict (list float)) (ranges_km : list float) (c : dict float) :
  correlation_analysis samples ranges_km = Ok c ->
  Forall (fun kv => PrimFloat.is_nan (snd kv) = true
                    \/ (PrimFloat.leb (of_int (-1)) (snd kv) = true
                        /\ PrimFloat.leb (snd kv) (of_int 1) = true)) c.
Proof.
  intros Hc.
  apply (correlation_loop_clipped samples ranges_km stochastic_fields [] c);
    [ constructor | exact Hc ].
Qed.

(** The floored batch: one coefficient is NaN, four are numbers. *)
Lemma correlations_are_clipped_witness :
  exists c,
    correlation_analysis floored_batch floored_ranges = Ok c
    /\ Forall (fun kv => PrimFloat.is_nan (snd kv) = true
                         \/ (PrimFloat.leb (of_int (-1)) (snd kv) = true
                             /\ PrimFloat.leb (snd kv) (of_int 1) = true)) c.
Proof.
  eexists. split; [ vm_compute; reflexivity | ].
  apply (correlations_are_clipped floored_batch floored_ranges).
  vm_compute. reflexivity.
Defined.

(** ** A perfectly linear relation, in exact arithmetic *)

Section Linear.
Local Open Scope R_scope.

Lemma sum_shift (l : list R) (acc : R) :
  fold_left Rplus l acc = acc + fold_left Rplus l 0.
Proof.
  revert acc. induction l as [ | v l IH]; intros acc; simpl; [ lra | ].
  rewrite (IH (acc + v)), (IH (0 + v)). lra.
Qed.

(** In exact arithmetic the order of the additions does not matter: the
    pairwise sum is the sum. *)
Lemma sum_app (l1 l2 : list R) :
  fold_left Rplus (l1 ++ l2) 0 = fold_left Rplus l1 0 + fold_left Rplus l2 0.
Proof. rewrite fold_left_app. apply sum_shift. Qed.

Lemma sum_firstn_skipn (k : nat) (l : list R) :
  fold_left Rplus (firstn k l) 0 + fold_left Rplus (skipn k l) 0
  = fold_left Rplus l 0.
Proof. rewrite <- sum_app. now rewrite firstn_skipn. Qed.

Lemma add_rows_length (r a : list R) :
  List.length (add_rows r a) = List.length r.
Proof.
  revert a. induction r as [ | x r IH]; intros a; [ reflexivity | ].
  destruct a as [ | y a]; [ reflexivity | ]. simpl. now rewrite IH.
Qed.

Lemma add_rows_sum (r a : list R) :
  fold_left Rplus (add_rows r a) 0
  = fold_left Rplus r 0 + fold_left Rplus (firstn (List.length r) a) 0.
Proof.
  revert a. induction r as [ | x r IH]; intros a; [ simpl; lra | ].
  destruct a as [ | y a]; [ simpl; lra | ].
  cbn [add_rows List.length firstn fold_left add Scalar_R].
  rewrite (sum_shift _ (0 + (x + y))), (sum_shift r (0 + x)),
    (sum_shift _ (0 + y)), IH.
  lra.
Qed.

Lemma combine8_sum (r : list R) :
  List.length r = 8%nat -> combine8 r = fold_left Rplus r 0.
Proof.
  intros Hr.
  do 8 (destruct r as [ | ? r]; [ discriminate Hr | ]).
  destruct r; [ | discriminate Hr ].
  simpl. lra.
Qed.

Lemma accumulate8_sum (k : nat) (r a : list R) :
  List.length r = 8%nat ->
  List.length (fst (accumulate8 k r a)) = 8%nat
  /\ fold_left Rplus (fst (accumulate8 k r a)) 0
     + fold_left Rplus (snd (accumulate8 k r a)) 0
     = fold_left Rplus r 0 + fold_left Rplus a 0.
Proof.
  revert r a. induction k as [ | k IH]; intros r a Hr; [ now split | ].
  cbn [accumulate8].
  destruct (IH (add_rows r (firstn 8 a)) (skipn 8 a)) as [Hl Hs].
  { now rewrite add_rows_length. }
  split; [ exact Hl | ].
  rewrite Hs, add_rows_sum, Hr, firstn_firstn, Nat.min_id.
  rewrite <- (sum_firstn_skipn 8 a). lra.
Qed.

Lemma block_sum_R (a : list R) :
  (8 <= List.length a)%nat -> block_sum a = fold_left Rplus a 0.
Proof.
  intros Ha. unfold block_sum.
  destruct (accumulate8_sum (List.length a / 8 - 1) (firstn 8 a) (skipn 8 a))
    as [Hl Hs].
  { rewrite length_firstn. lia. }
  destruct (accumulate8 (List.length a / 8 - 1) (firstn 8 a) (skipn 8 a))
    as [r rest].
  cbn [fst snd] in Hl, Hs. cbn [add Scalar_R].
  rewrite sum_shift, (combine8_sum r Hl), Hs.
  apply sum_firstn_skipn.
Qed.

Lemma pairwise_sum_R (fuel : nat) (a : list R) :
  pairwise_sum fuel a = fold_left Rplus a 0.
Proof.
  revert a. induction fuel as [ | fuel IH]; intros a; cbn [pairwise_sum];
    destruct (Nat.ltb_spec (List.length a) 8) as [H8 | H8];
    try reflexivity;
    destruct (Nat.leb_spec (List.length a) 128) as [H128 | H128];
    try (now apply block_sum_R).
  rewrite !IH. apply sum_firstn_skipn.
Qed.

Lemma np_sum_R (a : list R) : np_sum a = fold_left Rplus a 0.
Proof. apply pairwise_sum_R. Qed.

Lemma sum_affine (a b : R) (x : list R) :
  np_sum (map (fun v => a * v + b) x)
  = a * np_sum x + b * IZR (len x).
Proof.
  rewrite !np_sum_R. unfold len.
  induction x as [ | v x IH].
  - simpl. lra.
  - cbn [map fold_left List.length].
    rewrite (sum_shift _ (0 + (a * v + b))), (sum_shift x (0 + v)), IH.
    rewrite Nat2Z.inj_succ, succ_IZR. lra.
Qed.

Lemma mean_affine (a b : R) (x : list R) :
  x <> [] ->
  np_mean (map (fun v => a * v + b) x) = a * np_mean x + b.
Proof.
  intros Hx. unfold np_mean. rewrite sum_affine.
  unfold len. rewrite length_map. simpl.
  assert (Hn : IZR (Z.of_nat (List.length x)) <> 0).
  { apply not_0_IZR. destruct x; [ congruence | simpl; lia ]. }
  field. exact Hn.
Qed.

Lemma dot_shift (l1 l2 : list R) (acc : R) :
  dot l1 l2 acc = acc + dot l1 l2 0.
Proof.
  revert l2 acc. induction l1 as [ | u l1 IH]; intros l2 acc;
    [ simpl; lra | ].
  destruct l2 as [ | v l2]; [ simpl; lra | ].
  cbn [dot]. rewrite (IH l2 (acc + u * v)%num), (IH l2 (0 + u * v)%num).
  simpl. lra.
Qed.

Lemma dot_scaled_r (a : R) (l : list R) :
  dot l (map (fun d => a * d) l) 0 = a * dot l l 0.
Proof.
  induction l as [ | d l IH]; [ simpl; lra | ].
  cbn [map dot]. rewrite (dot_shift l _ _), (dot_shift l l _), IH.
  simpl. lra.
Qed.

Lemma dot_scaled_both (a : R) (l : list R) :
  dot (map (fun d => a * d) l) (map (fun d => a * d) l) 0
  = a * a * dot l l 0.
Proof.
  induction l as [ | d l IH]; [ simpl; lra | ].
  cbn [map dot]. rewrite (dot_shift _ _ _), (dot_shift l l _), IH.
  simpl. lra.
Qed.

Lemma dot_self_nonneg (l : list R) : 0 <= dot l l 0.
Proof.
  induction l as [ | d l IH]; [ simpl; lra | ].
  cbn [dot]. rewrite dot_shift. simpl.
  pose proof (Rle_0_sqr d) as Hd. unfold Rsqr in Hd. lra.
Qed.

Lemma dot_self_pos (l : list R) (d : R) :
  In d l -> d <> 0 -> 0 < dot l l 0.
Proof.
  intros Hin Hd. induction l as [ | e l IH]; [ contradiction | ].
  cbn [dot]. rewrite dot_shift. simpl.
  pose proof (dot_self_nonneg l) as Hl.
  pose proof (Rle_0_sqr e) as He. unfold Rsqr in He.
  destruct Hin as [-> | Hin].
  - assert (0 < d * d) by (apply Rsqr_pos_lt in Hd; exact Hd). lra.
  - specialize (IH Hin). lra.
Qed.

(** Some entry of a list with two different entries is off the mean. *)
Lemma deviation_pos (x : list R) (u v : R) :
  In u x -> In v x -> u <> v ->
  0 < dot (map (fun w => w - np_mean x) x) (map (fun w => w - np_mean x) x) 0.
Proof.
  intros Hu Hv Huv.
  destruct (Req_dec u (np_mean x)) as [Eu | Eu].
  - apply (dot_self_pos _ (v - np_mean x)).
    + apply in_map_iff. now exists v.
    + lra.
  - apply (dot_self_pos _ (u - np_mean x)).
    + apply in_map_iff. now exists u.
    + lra.
Qed.

Lemma pearson_unit (a w : R) :
  0 < w -> a <> 0 ->
  a * w / R_sqrt.sqrt w / R_sqrt.sqrt (a * a * w)
  = if Rlt_dec 0 a then 1 else -1.
Proof.
  intros Hw Ha.
  assert (Hs : 0 < R_sqrt.sqrt w) by now apply sqrt_lt_R0.
  assert (Hww : R_sqrt.sqrt w * R_sqrt.sqrt w = w) by (apply sqrt_sqrt; lra).
  assert (Haa : R_sqrt.sqrt (a * a * w) = Rabs a * R_sqrt.sqrt w).
  { rewrite sqrt_mult_alt by (apply Rle_0_sqr).
    fold (Rsqr a). now rewrite sqrt_Rsqr_abs. }
  rewrite Haa. rewrite <- Hww at 1.
  destruct (Rlt_dec 0 a) as [Hpos | Hneg].
  - rewrite Rabs_right by lra. field. lra.
  - rewrite Rabs_left by lra. field. lra.
Qed.

Lemma clip_R (q lo hi : R) : np_clip q lo hi = Rmin hi (Rmax q lo).
Proof.
  unfold np_clip. cbn [np_maximum np_minimum Scalar_R].
  now rewrite ExactFacts.minimum_Rmin, ExactFacts.maximum_Rmax.
Qed.

(** The coefficient of [x] with an affine image of [x]. *)
Lemma corrcoef_affine (a b : R) (x : list R) (u v : R) :
  (2 <= len x)%Z -> In u x -> In v x -> u <> v -> a <> 0 ->
  np_corrcoef_01 x (map (fun w => a * w + b) x)
  = Ok (if Rlt_dec 0 a then 1 else -1).
Proof.
  intros Hn Hu Hv Huv Ha.
  assert (Hx : x <> []) by (intros ->; contradiction).
  unfold np_corrcoef_01.
  rewrite len_eqb_refl by now rewrite length_map.
  cbn [negb]. cbv zeta. rewrite (mean_affine a b x Hx).
  destruct (len x - 1 <=? 0)%Z eqn:Ef; [ apply Z.leb_le in Ef; lia | ].
  apply Z.leb_gt in Ef.
  rewrite map_map.
  rewrite (map_ext (fun w => sub (a * w + b) (a * np_mean x + b))
             (fun w => a * (w - np_mean x)%num))
    by (intros w; simpl; lra).
  rewrite <- (map_map (fun w => (w - np_mean x)%num) (fun d => a * d)).
  set (X0 := map (fun w => (w - np_mean x)%num) x).
  rewrite dot_scaled_r, dot_scaled_both.
  assert (HS : 0 < dot X0 X0 0) by (apply (deviation_pos x u v); assumption).
  cbn [of_int mul div sqrt Scalar_R].
  set (S := dot X0 X0 (IZR 0)) in *.
  assert (Hk : 0 < 1 / IZR (len x - 1)).
  { apply Rdiv_lt_0_compat; [ lra | now apply IZR_lt ]. }
  set (k := 1 / IZR (len x - 1)) in *.
  assert (Hw : 0 < S * k) by now apply Rmult_lt_0_compat.
  replace (a * S * k) with (a * (S * k)) by ring.
  replace (a * a * S * k) with (a * a * (S * k)) by ring.
  rewrite (pearson_unit a (S * k) Hw Ha).
  f_equal. rewrite clip_R.
  destruct (Rlt_dec 0 a); unfold Rmax;
    match goal with
    | |- context [Rle_dec ?p ?q] => destruct (Rle_dec p q)
    end; unfold Rmin;
    match goal with
    | |- context [Rle_dec ?p ?q] => destruct (Rle_dec p q)
    end; lra.
Qed.

End Linear.

Lemma two_entries {A} (x : list A) (u v : A) :
  In u x -> In v x -> u <> v -> (2 <= Z.of_nat (List.length x))%Z.
Proof.
  intros Hu Hv Huv. destruct x as [ | a [ | b l]]; simpl in *.
  - contradiction.
  - destruct Hu as [<- | []], Hv as [<- | []]. congruence.
  - lia.
Qed.

Lemma range_affine_in_epack (eta e mb mt gr ld sfc hv sic ch : R) :
  (0 < gr)%R -> (0 < ld)%R -> (0 < sfc)%R -> (0 < mt)%R ->
  (breguet_r_m eta e mb mt gr ld sfc hv sic ch / 1000
   = eta * sic * mb / (gr * ld * sfc * mt * 1000) * e
     + eta * sic * (hv * 1000 * ch) / (gr * ld * sfc * mt * 1000))%R.
Proof.
  intros Hg Hl Hs Hm. unfold breguet_r_m. simpl. field.
  repeat split; lra.
Qed.

(** X13.  In exact arithmetic, when the trials differ in pack energy only
    and no trial is clamped, the range is an increasing linear function of
    the pack energy and the coefficient [np.corrcoef] gives for the pack
    energy against the ranges is exactly 1. *)
Theorem pack_energy_alone_correlates_fully
    (eta mb mt gr ld sfc hv sic ch : R) (epack : list R) (u v : R) :
  (0 < gr)%R -> (0 < ld)%R -> (0 < sfc)%R -> (0 < mt)%R ->
  (0 < eta * sic * mb)%R ->
  In u epack -> In v epack -> u <> v ->
  (forall e, In e epack ->
     (0 <= breguet_r_m eta e mb mt gr ld sfc hv sic ch / 1000 <= 50000)%R) ->
  np_corrcoef_01 epack
    (map (fun e => aeroforge_range_calc eta e mb mt gr ld sfc hv sic ch) epack)
  = Ok 1%R.
Proof.
  intros Hg Hl Hs Hm HA Hu Hv Huv Hin.
  assert (HD : (0 < gr * ld * sfc * mt)%R)
    by (repeat apply Rmult_lt_0_compat; assumption).
  set (A := (eta * sic * mb / (gr * ld * sfc * mt * 1000))%R).
  set (B := (eta * sic * (hv * 1000 * ch) / (gr * ld * sfc * mt * 1000))%R).
  assert (HApos : (0 < A)%R).
  { unfold A. apply Rdiv_lt_0_compat; [ exact HA | lra ]. }
  rewrite (map_ext_in _ (fun e => (A * e + B)%R)).
  - rewrite (corrcoef_affine A B epack u v); try assumption.
    + destruct (Rlt_dec 0 A); [ reflexivity | contradiction ].
    + now apply (two_entries epack u v).
    + lra.
  - intros e He. apply range_value_R.
    + now rewrite range_affine_in_epack.
    + unfold A, B.
      rewrite <- (range_affine_in_epack eta e mb mt gr ld sfc hv sic ch
                    Hg Hl Hs Hm).
      now apply Hin.
Qed.

(** Pack energies 400, 450 and 500 at the nominal parameters. *)
Lemma pack_energy_alone_correlates_fully_witness :
  np_corrcoef_01 [400; 450; 500]%R
    (map (fun e : R => (aeroforge_range_calc (92/100) e 25000 80000
                          (980665/100000) 22 (15/100000) 15 (108/100) 6)%R)
       [400; 450; 500]%R)
  = Ok 1%R.
Proof.
  apply (pack_energy_alone_correlates_fully (92/100)%R 25000%R 80000%R
           (980665/100000)%R 22%R (15/100000)%R 15%R (108/100)%R 6%R
           [400; 450; 500]%R 400%R 450%R); try lra.
  - simpl. tauto.
  - simpl. tauto.
  - intros e He. simpl in He.
    rewrite range_affine_in_epack by lra.
    destruct He as [<- | [<- | [<- | []]]]; lra.
Defined.
